(** * bladerf_source_c: the bladeRF receive block of gr-osmosdr

    A shallow embedding of [lib/bladerf/bladerf_source_c.cc]: the streaming
    work cycle (scratch buffer growth, synchronous transfer, consecutive
    failure accounting, fixed-point to float conversion) and the property
    accessors for bandwidth, frequency correction and antenna. *)

From Stdlib Require Import String ZArith List Bool Lia.
From Stdlib Require Import Floats.SpecFloat.
Import ListNotations.
Open Scope Z_scope.

(** ** IEEE 754 numbers

    C++ [float] and [double] are the binary32 and binary64 formats.  Both
    are instances of the Standard Library's executable specification of
    IEEE arithmetic, [SpecFloat], at the formats' precision and exponent
    range; rounding is to nearest, ties to even. *)

Module Float32.
Definition prec : Z := 24.
Definition emax : Z := 128.

(** [(float) x] for an integer [x]. *)
Definition of_int (x : Z) : spec_float := binary_normalize prec emax x 0 false.

(** [x / y] on [float]. *)
Definition div (x y : spec_float) : spec_float := SFdiv prec emax x y.

(** The float whose value is [m * 2^e], when that value is representable. *)
Definition dyadic (m e : Z) : spec_float := binary_normalize prec emax m e false.

Definition zero : spec_float := S754_zero false.
Definition one : spec_float := S754_finite false 8388608 (-23).
Definition minus_one : spec_float := S754_finite true 8388608 (-23).
End Float32.

Module Float64.
Definition prec : Z := 53.
Definition emax : Z := 1024.

Definition of_int (x : Z) : spec_float := binary_normalize prec emax x 0 false.
Definition mul (x y : spec_float) : spec_float := SFmul prec emax x y.
Definition dyadic (m e : Z) : spec_float := binary_normalize prec emax m e false.

(** [x == y] on [double]: false on NaN, true on zeros of either sign. *)
Definition eqb (x y : spec_float) : bool := SFeqb x y.

Definition zero : spec_float := S754_zero false.

(** The literal [0.75], that is [3 * 2^-2]. *)
Definition three_quarters : spec_float := S754_finite false 6755399441055744 (-53).

(** [(uint32_t) x]: the fractional part is discarded; the conversion is
    undefined ([None]) for NaN, for the infinities and when the truncated
    value does not fit in 32 unsigned bits. *)
Definition trunc (x : spec_float) : option Z :=
  match x with
  | S754_zero _ => Some 0
  | S754_finite s m e =>
      let a := if 0 <=? e then Z.shiftl (Zpos m) e else Z.shiftr (Zpos m) (- e) in
      Some (if s then - a else a)
  | _ => None
  end.

Definition to_uint32 (x : spec_float) : option Z :=
  match trunc x with
  | Some t => if (0 <=? t) && (t <? 2 ^ 32) then Some t else None
  | None => None
  end.
End Float64.

(** The canonical binary64 mantissa of a positive integer of at most 53 bits. *)
Definition mantissa53 (q : positive) : positive :=
  Z.to_pos (Zpos q * 2 ^ (53 - Zpos (digits2_pos q))).

(** Structural equality of float values (distinguishes the two zeros). *)
Definition sf_same (a b : spec_float) : bool :=
  match a, b with
  | S754_zero s, S754_zero s' => Bool.eqb s s'
  | S754_infinity s, S754_infinity s' => Bool.eqb s s'
  | S754_nan, S754_nan => true
  | S754_finite s m e, S754_finite s' m' e' =>
      Bool.eqb s s' && Pos.eqb m m' && Z.eqb e e'
  | _, _ => false
  end.

(** ** Machine integers *)

(** The value of the low 16 bits read as an [int16_t]. *)
Definition int16 (z : Z) : Z := (z + 32768) mod 65536 - 32768.

(** Increment and assignment on [unsigned int] wrap at [2^32]. *)
Definition wrap32 (z : Z) : Z := z mod 2 ^ 32.

(** ** External constants *)

(** GNU Radio's [gr::block::WORK_DONE]. *)
Definition WORK_DONE : Z := -1.

(** Modelled from the spec: [MAX_CONSECUTIVE_FAILURES] is declared in
    bladerf_common.h, which is not among the sources at hand; the spec gives
    the threshold as the fixed value 3. *)
Definition MAX_CONSECUTIVE_FAILURES : Z := 3.

(** ** Fixed-point to float conversion *)

(** [const float scaling = 2048.0f] in [work]. *)
Definition scaling : spec_float := S754_finite false 8388608 (-12).

(** One element of volk's [volk_16i_s32f_convert_32f] (generic kernel):
    [out[i] = ((float) in[i]) / scalar]. *)
Definition convert_16i_32f (scalar : spec_float) (x : Z) : spec_float :=
  Float32.div (Float32.of_int x) scalar.

(** [volk_16i_s32f_convert_32f (out, in, scalar, num_points)]: the floats
    stored to [out]. *)
Definition volk_16i_s32f_convert_32f
  (inputVector : list Z) (scalar : spec_float) (num_points : nat) : list spec_float :=
  map (convert_16i_32f scalar) (firstn num_points inputVector).

(** [gr_complex] is [std::complex<float>]: real part, then imaginary part. *)
Definition gr_complex : Type := (spec_float * spec_float)%type.

(** The complex samples laid out in an array of floats. *)
Fixpoint as_complex (fs : list spec_float) : list gr_complex :=
  match fs with
  | re :: im :: rest => (re, im) :: as_complex rest
  | _ => []
  end.

(** All integers [x], [x+1], ..., [x+fuel-1] satisfy [p]. *)
Fixpoint all_from (fuel : nat) (x : Z) (p : Z -> bool) : bool :=
  match fuel with
  | O => true
  | S k => p x && all_from k (x + 1) p
  end.

(** ** The adapter state and one work cycle *)

(** Modelled from the spec: the members of [bladerf_common] that [work]
    reads and writes are declared and initialised in bladerf_common.h/.cc,
    which are not among the sources at hand.  The spec has a scratch region
    of raw 16-bit samples and a mutable integer counter of consecutive
    failures; the fields are typed by how [work] uses them, the counter as
    an [unsigned int]. *)
Record adapter := mk_adapter {
  _conv_buf : list Z;            (* int16_t *_conv_buf: the block's contents *)
  _conv_buf_size : Z;            (* int, in samples (two int16_t each) *)
  _consecutive_failures : Z;     (* unsigned int *)
  _use_metadata : bool
}.

Definition set_conv_buf_size (st : adapter) (n : Z) : adapter :=
  mk_adapter (_conv_buf st) n (_consecutive_failures st) (_use_metadata st).
Definition set_conv_buf (st : adapter) (buf : list Z) : adapter :=
  mk_adapter buf (_conv_buf_size st) (_consecutive_failures st) (_use_metadata st).
Definition set_consecutive_failures (st : adapter) (k : Z) : adapter :=
  mk_adapter (_conv_buf st) (_conv_buf_size st) k (_use_metadata st).

(** What the environment contributes to one invocation of [work]: the
    scheduler's request, the allocator's answer, and the driver's answer. *)
Record cycle := mk_cycle {
  noutput_items : Z;        (* requested number of samples *)
  realloc_fails : bool;     (* realloc, if called, returns NULL *)
  fresh : nat -> Z;         (* indeterminate contents of newly obtained memory *)
  rx_ret : Z;               (* status returned by bladerf_sync_rx *)
  rx_stored : nat;          (* int16_t values stored before a failure *)
  rx_samples : nat -> Z     (* the values the driver stores, by position *)
}.

(** [struct bladerf_metadata] as far as [work] fills it in. *)
Record bladerf_metadata := mk_meta { meta_flags : Z }.
Definition BLADERF_META_FLAG_RX_NOW : Z := Z.shiftl 1 31.

(** [meta_ptr]: NULL unless [_use_metadata]. *)
Definition meta_ptr (st : adapter) : option bladerf_metadata :=
  if _use_metadata st then Some (mk_meta BLADERF_META_FLAG_RX_NOW) else None.

(** Capacity of the scratch block, in samples. *)
Definition capacity (st : adapter) : Z := Z.of_nat (length (_conv_buf st)) / 2.

(** [realloc (old, count * sizeof(int16_t))] when it succeeds: the old
    contents up to the new size, followed by indeterminate values. *)
Definition realloc (old : list Z) (count : nat) (garbage : nat -> Z) : list Z :=
  firstn count old ++
  map (fun i => int16 (garbage i)) (seq (length old) (count - length old)).

Inductive grown :=
| Grown (st : adapter)
| ReallocFailed (st : adapter).

(** Lines 140-151: grow the scratch block when the request exceeds the
    recorded size.  The recorded size is assigned before realloc is called. *)
Definition ensure_capacity (c : cycle) (st : adapter) : grown :=
  if _conv_buf_size st <? noutput_items c then
    let st1 := set_conv_buf_size st (noutput_items c) in
    if realloc_fails c then ReallocFailed st1
    else Grown (set_conv_buf st1
                  (realloc (_conv_buf st1) (Z.to_nat (_conv_buf_size st1 * 2)) (fresh c)))
  else Grown st.

(** [bladerf_sync_rx (dev, buf, num_samples, meta, timeout)]: on success all
    [2 * num_samples] values are stored at the start of [buf]; on failure
    only the first [rx_stored] of them (possibly none).  Returns the status
    and the contents of [buf] afterwards. *)
Definition bladerf_sync_rx (c : cycle) (buf : list Z) (num_samples : Z)
  (meta : option bladerf_metadata) : Z * list Z :=
  let want := Z.to_nat (2 * num_samples) in
  let k := if rx_ret c =? 0 then want else Nat.min (rx_stored c) want in
  (rx_ret c, map (fun i => int16 (rx_samples c i)) (seq 0 k) ++ skipn k buf).

(** Lines 162-176: failure accounting.  The boolean tells whether the
    consecutive error limit was hit. *)
Definition count_failure (ret : Z) (st : adapter) : bool * adapter :=
  if negb (ret =? 0) then
    let st1 := set_consecutive_failures st (wrap32 (_consecutive_failures st + 1)) in
    (MAX_CONSECUTIVE_FAILURES <=? _consecutive_failures st1, st1)
  else
    (false, set_consecutive_failures st 0).

Inductive work_result :=
| Returned (ret : Z) (out : list gr_complex)  (* return value; samples stored to output_items[0] *)
| Threw (what : string)                       (* std::runtime_error *)
| Undefined.                                  (* behaviour not defined by the language *)

(** The requests for which the arithmetic of [work] is defined: the count is
    not negative and [2 * noutput_items] fits an [int]. *)
Definition in_contract (n : Z) : bool := (0 <=? n) && (n <? 2 ^ 30).

(** [bladerf_source_c::work]. *)
Definition work (c : cycle) (st : adapter) : work_result * adapter :=
  let n := noutput_items c in
  if negb (in_contract n) then (Undefined, st) else
  match ensure_capacity c st with
  | ReallocFailed st1 => (Threw "workFailed to realloc _conv_buf", st1)
  | Grown st1 =>
      if capacity st1 <? n then (Undefined, st1)   (* the transfer would overrun the block *)
      else
        let (ret, buf) := bladerf_sync_rx c (_conv_buf st1) n (meta_ptr st1) in
        let st2 := set_conv_buf st1 buf in
        let (limit_hit, st3) := count_failure ret st2 in
        if limit_hit then (Returned WORK_DONE [], st3)
        else
          (Returned n
             (as_complex
                (volk_16i_s32f_convert_32f (_conv_buf st3) scaling (Z.to_nat (2 * n)))),
           st3)
  end.

(** Successive invocations.  An exception or undefined behaviour ends the
    run; a returned value, also [WORK_DONE], does not by itself. *)
Fixpoint run (cs : list cycle) (st : adapter) : list work_result * adapter :=
  match cs with
  | [] => ([], st)
  | c :: cs' =>
      match work c st with
      | (Returned ret out, st') =>
          let (rs, st'') := run cs' st' in (Returned ret out :: rs, st'')
      | (r, st') => ([r], st')
      end
  end.

(** The integer a caller of [work] sees, if any. *)
Definition returned (r : work_result) : option Z :=
  match r with
  | Returned ret _ => Some ret
  | _ => None
  end.

(** The block's contents have the recorded size. *)
Definition consistent (st : adapter) : Prop :=
  Z.of_nat (length (_conv_buf st)) = 2 * _conv_buf_size st.

(** A cycle that is within the contract and whose allocation, if any, succeeds. *)
Definition benign (c : cycle) : Prop :=
  in_contract (noutput_items c) = true /\ realloc_fails c = false.

(** A cycle that gets as far as the transfer from [st]: within the contract,
    and the block is large enough or can be grown. *)
Definition completes (c : cycle) (st : adapter) : Prop :=
  in_contract (noutput_items c) = true /\
  (noutput_items c <= _conv_buf_size st \/ realloc_fails c = false).

(** The samples a completed cycle stores to the output: the scratch block,
    converted. *)
Definition converted (st : adapter) (n : Z) : list gr_complex :=
  as_complex (volk_16i_s32f_convert_32f (_conv_buf st) scaling (Z.to_nat (2 * n))).

(** *** States of the adapter over its lifetime *)

(** Reachable by any sequence of invocations whatsoever. *)
Inductive reachable (st0 : adapter) : adapter -> Prop :=
| reachable_start : reachable st0 st0
| reachable_work (st : adapter) (c : cycle) :
    reachable st0 st -> reachable st0 (snd (work c st)).

(** Reachable by invocations that all returned to the scheduler (with a
    sample count or with [WORK_DONE]). *)
Inductive executed (st0 : adapter) : adapter -> Prop :=
| executed_start : executed st0 st0
| executed_work (st st' : adapter) (c : cycle) (ret : Z) (out : list gr_complex) :
    executed st0 st -> work c st = (Returned ret out, st') -> executed st0 st'.

(** Reachable while the stream is live: every invocation so far returned,
    and none of them returned [WORK_DONE]. *)
Inductive streaming (st0 : adapter) : adapter -> Prop :=
| streaming_start : streaming st0 st0
| streaming_work (st st' : adapter) (c : cycle) (ret : Z) (out : list gr_complex) :
    streaming st0 st -> work c st = (Returned ret out, st') -> ret <> WORK_DONE ->
    streaming st0 st'.

(** Reachable under a scheduler that stops invoking [work] once an
    invocation has returned [WORK_DONE] or has not returned at all: a live
    state, or the state one more invocation leaves behind. *)
Inductive scheduled (st0 : adapter) : adapter -> Prop :=
| scheduled_live (st : adapter) : streaming st0 st -> scheduled st0 st
| scheduled_last (st : adapter) (c : cycle) :
    streaming st0 st -> scheduled st0 (snd (work c st)).

(** *** Concrete cycles and a small adapter with no failure recorded *)

Definition rx_fail (n : Z) : cycle := mk_cycle n false (fun _ => 0) (-1) 0 (fun _ => 0).
Definition rx_ok (n : Z) (samples : nat -> Z) : cycle :=
  mk_cycle n false (fun _ => 0) 0 0 samples.
Definition no_memory (n : Z) : cycle := mk_cycle n true (fun _ => 0) 0 0 (fun _ => 0).
Definition fresh_adapter : adapter := mk_adapter [0; 0; 0; 0] 2 0 false.

(** The driver delivers the raw values 2048, -2048, 0, 0, ... *)
Definition unit_samples (i : nat) : Z :=
  match i with
  | O => 2048
  | S O => -2048
  | _ => 0
  end.

(** An adapter that has already seen two failures in a row. *)
Definition two_failures_in : adapter := snd (run [rx_fail 1; rx_fail 1] fresh_adapter).

(** The adapter right after the third failure in a row. *)
Definition three_failures_in : adapter :=
  snd (run [rx_fail 1; rx_fail 1; rx_fail 1] fresh_adapter).

(** ** Property accessors *)

(** Modelled from the spec: the board revisions are an enumeration of
    bladerf_common.h, which is not among the sources at hand; the spec tells
    apart the newer, dual-antenna revision from the single-antenna one. *)
Inductive bladerf_board_type :=
| BLADERF_REV_INVALID
| BLADERF_REV_1
| BLADERF_REV_2.

Definition board_eqb (a b : bladerf_board_type) : bool :=
  match a, b with
  | BLADERF_REV_INVALID, BLADERF_REV_INVALID => true
  | BLADERF_REV_1, BLADERF_REV_1 => true
  | BLADERF_REV_2, BLADERF_REV_2 => true
  | _, _ => false
  end.

Inductive outcome (A : Type) : Type :=
| Value (a : A)
| Raised (what : string)        (* std::runtime_error *)
| Undef.                        (* behaviour not defined by the language *)
Arguments Value {A} a.
Arguments Raised {A} what.
Arguments Undef {A}.

(** The layer below the block, over the state [device] behind [_dev]: the
    calls into libbladeRF and into bladerf_common that the accessors make.
    None of it is part of bladerf_source_c.cc. *)
Class Hardware (device : Type) := {
  (* bladerf_common::get_sample_rate (BLADERF_RX) *)
  common_get_sample_rate : device -> outcome spec_float * device;
  (* bladerf_set_bandwidth (dev, BLADERF_RX, bandwidth, &actual): status, actual, device afterwards *)
  bladerf_set_bandwidth : device -> Z -> Z * Z * device;
  (* bladerf_get_bandwidth (dev, BLADERF_RX, &bandwidth): status, bandwidth *)
  bladerf_get_bandwidth : device -> Z * Z;
  get_board_type : device -> bladerf_board_type;
  bladerf_strerror : Z -> string;
  BLADERF_CHANNEL_RX : Z -> Z
}.

(** The calls that reach the hardware, as they are made. *)
Inductive hw_call :=
| GetSampleRate
| SetBandwidth (bandwidth : Z)
| GetBandwidth.

(** An accessor: runs on the device, yields an outcome, the device
    afterwards and the hardware calls it made. *)
Definition hw (device A : Type) : Type := device -> outcome A * device * list hw_call.

Definition ret {device A : Type} (a : A) : hw device A :=
  fun d => (Value a, d, []).

Definition raise {device A : Type} (what : string) : hw device A :=
  fun d => (Raised what, d, []).

Definition undefined {device A : Type} : hw device A :=
  fun d => (Undef, d, []).

Definition bind {device A B : Type} (m : hw device A) (k : A -> hw device B) : hw device B :=
  fun d =>
    match m d with
    | (Value a, d1, t1) => let '(r, d2, t2) := k a d1 in (r, d2, t1 ++ t2)
    | (Raised what, d1, t1) => (Raised what, d1, t1)
    | (Undef, d1, t1) => (Undef, d1, t1)
    end.

Notation "x <- m ;; k" := (bind m (fun x => k))
  (at level 61, m at next level, right associativity).

(** [bladerf_source_c::get_sample_rate]. *)
Definition get_sample_rate {device : Type} `{Hardware device} : hw device spec_float :=
  fun d => let (r, d1) := common_get_sample_rate d in (r, d1, [GetSampleRate]).

(** The driver calls, with their trace. *)
Definition call_set_bandwidth {device : Type} `{Hardware device} (bandwidth : Z) : hw device Z :=
  fun d => let '(status, actual, d1) := bladerf_set_bandwidth d bandwidth in
           (Value status, d1, [SetBandwidth bandwidth]).

Definition call_get_bandwidth {device : Type} `{Hardware device} : hw device (Z * Z) :=
  fun d => (Value (bladerf_get_bandwidth d), d, [GetBandwidth]).

(** The conversion [(uint32_t) bandwidth]. *)
Definition cast_uint32 {device : Type} (x : spec_float) : hw device Z :=
  match Float64.to_uint32 x with
  | Some v => ret v
  | None => undefined
  end.

(** [bladerf_source_c::get_bandwidth]. *)
Definition get_bandwidth {device : Type} `{Hardware device} (chan : Z) : hw device spec_float :=
  reply <- call_get_bandwidth ;;
  if negb (fst reply =? 0)
  then raise ("get_bandwidth could not get bandwidth:" ++ bladerf_strerror (fst reply))
  else ret (Float64.of_int (snd reply)).

(** Lines 366-373 of [set_bandwidth]: hand the bandwidth to the driver and
    read back what the hardware settled on ([get_bandwidth ()], the channel
    left to its default). *)
Definition apply_bandwidth {device : Type} `{Hardware device} (bandwidth : spec_float)
  : hw device spec_float :=
  requested <- cast_uint32 bandwidth ;;
  status <- call_set_bandwidth requested ;;
  if negb (status =? 0)
  then raise ("set_bandwidth could not set bandwidth: " ++ bladerf_strerror status)
  else get_bandwidth 0.

(** [bladerf_source_c::set_bandwidth]. *)
Definition set_bandwidth {device : Type} `{Hardware device} (bandwidth : spec_float) (chan : Z)
  : hw device spec_float :=
  bandwidth <- (if Float64.eqb bandwidth Float64.zero
                then rate <- get_sample_rate ;;
                     ret (Float64.mul rate Float64.three_quarters)
                else ret bandwidth) ;;
  apply_bandwidth bandwidth.

(** The bandwidths handed to the hardware, in order. *)
Fixpoint bandwidth_requests (t : list hw_call) : list Z :=
  match t with
  | [] => []
  | SetBandwidth b :: t' => b :: bandwidth_requests t'
  | _ :: t' => bandwidth_requests t'
  end.

(** The bandwidth the driver is asked for when [x] is to be applied: [x]
    converted to the driver's 32-bit unsigned parameter; none when that
    conversion is undefined. *)
Definition requested_for (x : spec_float) : list Z :=
  match Float64.to_uint32 x with
  | Some v => [v]
  | None => []
  end.

(** [bladerf_source_c::get_freq_corr]: [return 0]. *)
Definition get_freq_corr {device : Type} (chan : Z) : hw device spec_float :=
  ret Float64.zero.

(** [bladerf_source_c::set_freq_corr]. *)
Definition set_freq_corr {device : Type} `{Hardware device} (ppm : spec_float) (chan : Z)
  : hw device spec_float :=
  get_freq_corr (BLADERF_CHANNEL_RX chan).

(** Any number of [set_freq_corr] calls, one after the other. *)
Fixpoint set_freq_corr_all {device : Type} `{Hardware device}
  (calls : list (spec_float * Z)) : hw device unit :=
  match calls with
  | [] => ret tt
  | (ppm, chan) :: rest => _ <- set_freq_corr ppm chan ;; set_freq_corr_all rest
  end.

(** [bladerf_source_c::get_antenna]. *)
Definition get_antenna {device : Type} (chan : Z) : hw device string :=
  ret "RX0"%string.

(** [bladerf_source_c::set_antenna]. *)
Definition set_antenna {device : Type} `{Hardware device} (antenna : string) (chan : Z)
  : hw device string :=
  get_antenna (BLADERF_CHANNEL_RX chan).

(** [bladerf_source_c::get_antennas]. *)
Definition get_antennas {device : Type} `{Hardware device} (chan : Z)
  : hw device (list string) :=
  fun d =>
    let antennas := ["RX0"%string] in
    let antennas :=
      if board_eqb BLADERF_REV_2 (get_board_type d)
      then antennas ++ ["RX1"%string] else antennas in
    (Value antennas, d, []).

(** *** A simulated board

    A device whose hardware accepts every bandwidth as requested and
    reports an integral sample rate. *)
Record sim := mk_sim {
  sim_rate : Z;
  sim_bandwidth : Z;
  sim_board : bladerf_board_type
}.

#[export] Instance sim_hardware : Hardware sim := {
  common_get_sample_rate d := (Value (Float64.of_int (sim_rate d)), d);
  bladerf_set_bandwidth d b := (0, b, mk_sim (sim_rate d) b (sim_board d));
  bladerf_get_bandwidth d := (0, sim_bandwidth d);
  get_board_type d := sim_board d;
  bladerf_strerror _ := "error"%string;
  BLADERF_CHANNEL_RX ch := Z.lor (Z.shiftl ch 1) 0
}.


(** ** Further parts of the block *)

(** The raw values an [int16_t] can hold. *)
Definition is_int16 (x : Z) : Prop := -32768 <= x < 32768.

(** The raw sample behind a float: [2048 * f] when that is an integer. *)
Definition raw_of_float (f : spec_float) : option Z :=
  match f with
  | S754_zero _ => Some 0
  | S754_finite s m e =>
      let k := e + 11 in
      if 0 <=? k then Some ((if s then -1 else 1) * (Zpos m * 2 ^ k))
      else if Zpos m mod 2 ^ (- k) =? 0
           then Some ((if s then -1 else 1) * (Zpos m / 2 ^ (- k)))
           else None
  | _ => None
  end.

(** *** Correction modes (lines 306-356) *)

(** [std::complex<double>]. *)
Definition complex_double : Type := (spec_float * spec_float)%type.

(** The layer below the correction setters: [bladerf_common::set_dc_offset]
    and [bladerf_common::set_iq_balance] (status and device afterwards), and
    the mode constants of [osmosdr::source], declared in osmosdr/source.h.
    None of it is part of bladerf_source_c.cc. *)
Class Correction (device : Type) := {
  common_set_dc_offset : device -> complex_double -> Z -> Z * device;
  common_set_iq_balance : device -> complex_double -> Z -> Z * device;
  DCOffsetOff : Z;
  DCOffsetManual : Z;
  DCOffsetAutomatic : Z;
  IQBalanceOff : Z;
  IQBalanceManual : Z;
  IQBalanceAutomatic : Z
}.

(** What a setter leaves behind: its outcome, the device afterwards and the
    lines written to [std::cerr]. *)
Definition effect (device : Type) : Type := (outcome unit * device * list string)%type.

(** [bladerf_source_c::set_dc_offset]. *)
Definition set_dc_offset {device : Type} `{Hardware device} `{Correction device}
  (offset : complex_double) (chan : Z) (d : device) : effect device :=
  let (ret, d1) := common_set_dc_offset d offset chan in
  if negb (ret =? 0)
  then (Raised ("set_dc_offset could not set dc offset: " ++ bladerf_strerror ret), d1, [])
  else (Value tt, d1, []).

(** [bladerf_source_c::set_dc_offset_mode]. *)
Definition set_dc_offset_mode {device : Type} `{Hardware device} `{Correction device}
  (mode : Z) (chan : Z) (d : device) : effect device :=
  if DCOffsetOff =? mode then
    set_dc_offset (Float64.zero, Float64.zero) chan d
  else if DCOffsetManual =? mode then
    (Value tt, d, [])
  else if DCOffsetAutomatic =? mode then
    (Value tt, d, ["Automatic DC correction mode is not implemented."%string])
  else (Value tt, d, []).

(** [bladerf_source_c::set_iq_balance]. *)
Definition set_iq_balance {device : Type} `{Hardware device} `{Correction device}
  (balance : complex_double) (chan : Z) (d : device) : effect device :=
  let (ret, d1) := common_set_iq_balance d balance chan in
  if negb (ret =? 0)
  then (Raised ("set_iq_balance could not set iq balance: " ++ bladerf_strerror ret), d1, [])
  else (Value tt, d1, []).

(** [bladerf_source_c::set_iq_balance_mode]. *)
Definition set_iq_balance_mode {device : Type} `{Hardware device} `{Correction device}
  (mode : Z) (chan : Z) (d : device) : effect device :=
  if IQBalanceOff =? mode then
    set_iq_balance (Float64.zero, Float64.zero) chan d
  else if IQBalanceManual =? mode then
    (Value tt, d, [])
  else if IQBalanceAutomatic =? mode then
    (Value tt, d, ["Automatic IQ correction mode is not implemented."%string])
  else (Value tt, d, []).

(** *** The constructor after [init] (lines 86-117) *)

(** [dict_t], a map from option names to values, as the list of its
    entries; [dict.count (key)] is nonzero and [dict[key]] is the value
    exactly when [dict_find] finds one. *)
Definition dict_t : Type := list (string * string).

Fixpoint dict_find (key : string) (dict : dict_t) : option string :=
  match dict with
  | [] => None
  | (k, v) :: rest => if String.eqb k key then Some v else dict_find key rest
  end.

(** libbladeRF's [bladerf_sampling] values the constructor uses. *)
Inductive bladerf_sampling :=
| BLADERF_SAMPLING_INTERNAL
| BLADERF_SAMPLING_EXTERNAL.

(** libbladeRF's [struct bladerf_version]: three [uint16_t]. *)
Record bladerf_version := mk_version {
  major : Z;
  minor : Z;
  patch : Z
}.

(** The driver calls of the constructor: [bladerf_set_sampling] (status and
    device afterwards) and [bladerf_fpga_version] (status and version). *)
Class Board (device : Type) := {
  bladerf_set_sampling : device -> bladerf_sampling -> Z * device;
  bladerf_fpga_version : device -> Z * bladerf_version
}.

(** What the constructor writes to [std::cerr], line by line. *)
Inductive notice :=
| SettingSampling (sampling : string)
| SamplingProblem (ret : Z)
| InvalidSampling (sampling : string)
| FpgaVersionFailed
| FpgaTooOld.

(** The text of a line, after the prefix [_pfx]. *)
Definition notice_text {device : Type} `{Hardware device} (n : notice) : string :=
  match n with
  | SettingSampling s => "Setting bladerf sampling to " ++ s
  | SamplingProblem r => "Problem while setting sampling mode:" ++ bladerf_strerror r
  | InvalidSampling s => "Invalid sampling mode " ++ s
  | FpgaVersionFailed => "Failed to get FPGA version"
  | FpgaTooOld =>
      "Warning: FPGA version v0.0.1 or later is required. " ++
      "Using an earlier FPGA version will result in misinterpeted samples. "
  end%string.

(** Lines 91-100: one of the two calls of [bladerf_set_sampling]. *)
Definition try_set_sampling {device : Type} `{Board device}
  (mode : bladerf_sampling) (d : device) : device * list notice :=
  let (ret, d1) := bladerf_set_sampling d mode in
  if negb (ret =? 0) then (d1, [SamplingProblem ret]) else (d1, []).

(** Lines 86-104: the [sampling] option. *)
Definition configure_sampling {device : Type} `{Board device}
  (dict : dict_t) (d : device) : device * list notice :=
  match dict_find "sampling" dict with
  | Some sampling =>
      let (d1, log) :=
        if String.eqb sampling "internal" then try_set_sampling BLADERF_SAMPLING_INTERNAL d
        else if String.eqb sampling "external" then try_set_sampling BLADERF_SAMPLING_EXTERNAL d
        else (d, [InvalidSampling sampling]) in
      (d1, SettingSampling sampling :: log)
  | None => (d, [])
  end.

(** Line 110-112: the condition of the old-FPGA warning. *)
Definition fpga_too_old (v : bladerf_version) : bool :=
  (major v <=? 0) && (minor v <=? 0) && (patch v <? 1).

(** Lines 106-117: the FPGA version check. *)
Definition check_fpga_version {device : Type} `{Board device} (d : device) : list notice :=
  let (status, v) := bladerf_fpga_version d in
  if negb (status =? 0) then [FpgaVersionFailed]
  else if fpga_too_old v then [FpgaTooOld]
  else [].

(** The constructor's body after [init (dict, BLADERF_RX)]. *)
Definition construct {device : Type} `{Board device}
  (dict : dict_t) (d : device) : device * list notice :=
  let (d1, log) := configure_sampling dict d in
  (d1, log ++ check_fpga_version d1).

(** Versions in their usual order: major, then minor, then patch. *)
Definition version_lt (v w : bladerf_version) : Prop :=
  major v < major w \/
  major v = major w /\ (minor v < minor w \/ minor v = minor w /\ patch v < patch w).

(** *** A test bench

    A device whose driver answers with the statuses it is configured with,
    and takes every bandwidth as requested. *)
Record bench := mk_bench {
  bench_rate : Z;
  bench_bandwidth : Z;
  bench_board : bladerf_board_type;
  bench_set_status : Z;       (* status of bladerf_set_bandwidth *)
  bench_get_status : Z;       (* status of bladerf_get_bandwidth *)
  bench_corr_status : Z;      (* status of set_dc_offset and set_iq_balance *)
  bench_corrections : list (complex_double * Z);   (* corrections written so far *)
  bench_fpga : bladerf_version
}.

Definition bench_with_bandwidth (d : bench) (b : Z) : bench :=
  mk_bench (bench_rate d) b (bench_board d) (bench_set_status d) (bench_get_status d)
    (bench_corr_status d) (bench_corrections d) (bench_fpga d).

Definition bench_with_correction (d : bench) (c : complex_double) (chan : Z) : bench :=
  mk_bench (bench_rate d) (bench_bandwidth d) (bench_board d) (bench_set_status d)
    (bench_get_status d) (bench_corr_status d) ((c, chan) :: bench_corrections d)
    (bench_fpga d).

#[export] Instance bench_hardware : Hardware bench := {
  common_get_sample_rate d := (Value (Float64.of_int (bench_rate d)), d);
  bladerf_set_bandwidth d b := (bench_set_status d, b, bench_with_bandwidth d b);
  bladerf_get_bandwidth d := (bench_get_status d, bench_bandwidth d);
  get_board_type d := bench_board d;
  bladerf_strerror _ := "error"%string;
  BLADERF_CHANNEL_RX ch := Z.lor (Z.shiftl ch 1) 0
}.

#[export] Instance bench_correction : Correction bench := {
  common_set_dc_offset d c chan := (bench_corr_status d, bench_with_correction d c chan);
  common_set_iq_balance d c chan := (bench_corr_status d, bench_with_correction d c chan);
  DCOffsetOff := 0;
  DCOffsetManual := 1;
  DCOffsetAutomatic := 2;
  IQBalanceOff := 0;
  IQBalanceManual := 1;
  IQBalanceAutomatic := 2
}.

#[export] Instance bench_board_driver : Board bench := {
  bladerf_set_sampling d _ := (bench_corr_status d, d);
  bladerf_fpga_version d := (0, bench_fpga d)
}.

Definition quiet_bench : bench :=
  mk_bench 2000000 1500000 BLADERF_REV_2 0 0 0 [] (mk_version 0 7 3).
Definition failing_bench : bench :=
  mk_bench 2000000 1500000 BLADERF_REV_1 (-1) (-1) (-1) [] (mk_version 0 0 0).
Definition deaf_bench : bench :=
  mk_bench 2000000 1500000 BLADERF_REV_1 0 (-1) 0 [] (mk_version 0 0 0).

(** Lines 363-364 of [set_bandwidth], in terms of the layer below: from the
    argument [b] on the device [d], the bandwidth the function goes on
    with, the device by then and the calls made by then.  A nonzero
    argument is taken as it is; for a zero argument the sample rate is read
    and three quarters of it taken. *)
Inductive resolves {device : Type} `{Hardware device} (b : spec_float) (d : device)
  : spec_float -> device -> list hw_call -> Prop :=
| resolves_given :
    Float64.eqb b Float64.zero = false -> resolves b d b d []
| resolves_automatic (rate : spec_float) (d0 : device) :
    Float64.eqb b Float64.zero = true ->
    common_get_sample_rate d = (Value rate, d0) ->
    resolves b d (Float64.mul rate Float64.three_quarters) d0 [GetSampleRate].

(** * Properties *)


Lemma all_from_spec (p : Z -> bool) :
  forall fuel x, all_from fuel x p = true ->
  forall y, x <= y < x + Z.of_nat fuel -> p y = true.
Proof.
  induction fuel as [|k IH]; intros x H y Hy.
  - simpl in Hy. lia.
  - simpl in H. apply andb_true_iff in H as [Hx Hrest].
    destruct (Z.eq_dec y x) as [->|Hne]; [exact Hx|].
    apply (IH (x + 1) Hrest). lia.
Qed.

Lemma scaling_is_2048 : Float32.of_int 2048 = scaling.
Proof. reflexivity. Qed.

(** Every [int16_t] divided by [2048.0f] is exact: the result is the float
    whose value is [x * 2^-11]. *)
Lemma convert_exact (x : Z) :
  -32768 <= x < 32768 ->
  convert_16i_32f scaling x = Float32.dyadic x (-11).
Proof.
  intros Hx.
  assert (Hall : all_from (Z.to_nat 65536) (-32768)
            (fun y => sf_same (convert_16i_32f scaling y) (Float32.dyadic y (-11))) = true)
    by (vm_compute; reflexivity).
  pose proof (all_from_spec _ _ _ Hall x) as H.
  assert (Hs : sf_same (convert_16i_32f scaling x) (Float32.dyadic x (-11)) = true)
    by (apply H; rewrite Z2Nat.id; lia).
  clear H Hall.
  destruct (convert_16i_32f scaling x) as [s|s| |s m e];
    destruct (Float32.dyadic x (-11)) as [s'|s'| |s' m' e'];
    simpl in Hs; try discriminate; try reflexivity.
  - apply Bool.eqb_prop in Hs. now subst.
  - apply Bool.eqb_prop in Hs. now subst.
  - apply andb_true_iff in Hs as [Hs He]. apply andb_true_iff in Hs as [Hs Hm].
    apply Bool.eqb_prop in Hs. apply Pos.eqb_eq in Hm. apply Z.eqb_eq in He.
    now subst.
Qed.


Lemma benign_completes (c : cycle) (st : adapter) : benign c -> completes c st.
Proof. intros [H1 H2]. split; [exact H1|now right]. Qed.

Example run_three_failures :
  map returned (fst (run [rx_fail 1; rx_fail 2; rx_fail 1] fresh_adapter))
  = [Some 1; Some 2; Some WORK_DONE].
Proof. vm_compute. reflexivity. Qed.

Example run_converts :
  fst (work (rx_ok 1 (fun i => if Nat.eqb i 0 then 2048 else -2048)) fresh_adapter)
  = Returned 1 [(Float32.one, Float32.minus_one)].
Proof. vm_compute. reflexivity. Qed.

(** ** The scale factor *)

(** C6: the conversion divides each raw 16-bit sample by the scale factor
    2048.0; the raw value 2048 converts to exactly 1.0, -2048 to exactly -1.0
    and 0 to exactly 0.0, also as [work] emits them. *)
Theorem convert_unit_values :
  (forall x, convert_16i_32f scaling x = Float32.div (Float32.of_int x) (Float32.of_int 2048)) /\
  convert_16i_32f scaling 2048 = Float32.one /\
  convert_16i_32f scaling (-2048) = Float32.minus_one /\
  convert_16i_32f scaling 0 = Float32.zero /\
  fst (work (rx_ok 2 unit_samples) fresh_adapter) =
    Returned 2 [(Float32.one, Float32.minus_one); (Float32.zero, Float32.zero)].
Proof.
  split; [intros x; reflexivity|].
  repeat split; vm_compute; reflexivity.
Qed.


(** ** Basic facts about one cycle *)

Lemma realloc_length (old : list Z) (count : nat) (g : nat -> Z) :
  length (realloc old count g) = count.
Proof.
  unfold realloc.
  rewrite length_app, length_firstn, length_map, length_seq. lia.
Qed.

Lemma realloc_keeps (old : list Z) (count : nat) (g : nat -> Z) :
  (length old <= count)%nat -> firstn (length old) (realloc old count g) = old.
Proof.
  intros H. unfold realloc.
  rewrite (firstn_all2 old) by exact H.
  rewrite firstn_app, Nat.sub_diag, firstn_all. simpl. now rewrite app_nil_r.
Qed.

Lemma capacity_consistent (st : adapter) :
  consistent st -> capacity st = _conv_buf_size st.
Proof.
  unfold consistent, capacity. intros ->.
  rewrite Z.mul_comm. apply Z.div_mul. lia.
Qed.

Lemma consistent_size_nonneg (st : adapter) :
  consistent st -> 0 <= _conv_buf_size st.
Proof. unfold consistent. lia. Qed.

(** The growth step, when the allocator does not fail. *)
Lemma ensure_capacity_grown (c : cycle) (st : adapter) :
  noutput_items c <= _conv_buf_size st \/ realloc_fails c = false ->
  0 <= noutput_items c -> consistent st ->
  exists st1,
    ensure_capacity c st = Grown st1 /\
    consistent st1 /\
    _conv_buf_size st1 = Z.max (_conv_buf_size st) (noutput_items c) /\
    _consecutive_failures st1 = _consecutive_failures st /\
    _use_metadata st1 = _use_metadata st /\
    firstn (length (_conv_buf st)) (_conv_buf st1) = _conv_buf st.
Proof.
  intros Hre Hn Hc. unfold ensure_capacity.
  destruct (Z.ltb_spec (_conv_buf_size st) (noutput_items c)) as [Hlt|Hge].
  - destruct Hre as [Hre|Hre]; [lia|].
    rewrite Hre. eexists. split; [reflexivity|].
    unfold consistent in *. cbn [_conv_buf _conv_buf_size _consecutive_failures
      _use_metadata set_conv_buf set_conv_buf_size].
    rewrite realloc_length.
    repeat split; try lia.
    apply realloc_keeps. lia.
  - exists st. repeat split; try assumption; try lia.
    apply firstn_all.
Qed.

(** The transfer never changes the size of the block it is handed, as long
    as the block holds the [2 * num_samples] values asked for. *)
Lemma bladerf_sync_rx_length (c : cycle) (buf : list Z) (n : Z) m :
  2 * n <= Z.of_nat (length buf) ->
  length (snd (bladerf_sync_rx c buf n m)) = length buf.
Proof.
  intros H. unfold bladerf_sync_rx. cbn [snd].
  rewrite length_app, length_map, length_seq, length_skipn.
  destruct (rx_ret c =? 0); lia.
Qed.

Lemma bladerf_sync_rx_status (c : cycle) (buf : list Z) (n : Z) m :
  fst (bladerf_sync_rx c buf n m) = rx_ret c.
Proof. reflexivity. Qed.

(** A transfer that stores nothing leaves the block as it was. *)
Lemma bladerf_sync_rx_nothing_stored (c : cycle) (buf : list Z) (n : Z) m :
  rx_ret c <> 0 -> rx_stored c = 0%nat ->
  snd (bladerf_sync_rx c buf n m) = buf.
Proof.
  intros Hret Hst. unfold bladerf_sync_rx. cbn [snd].
  apply Z.eqb_neq in Hret. rewrite Hret, Hst. reflexivity.
Qed.

Lemma as_complex_length (fs : list spec_float) (n : nat) :
  length fs = (2 * n)%nat -> length (as_complex fs) = n.
Proof.
  revert fs. induction n as [|n IH]; intros fs H.
  - destruct fs; [reflexivity|discriminate].
  - destruct fs as [|re [|im rest]]; try (simpl in H; lia).
    simpl. f_equal. apply IH. simpl in H. lia.
Qed.

Lemma as_complex_nth (fs : list spec_float) (i : nat) (d : spec_float) :
  (2 * i + 1 < length fs)%nat ->
  nth i (as_complex fs) (d, d) = (nth (2 * i) fs d, nth (2 * i + 1) fs d).
Proof.
  revert fs. induction i as [|i IH]; intros fs H.
  - destruct fs as [|re [|im rest]]; simpl in H; try lia. reflexivity.
  - destruct fs as [|re [|im rest]]; simpl in H; try lia.
    replace (2 * S i)%nat with (S (S (2 * i))) by lia.
    replace (S (S (2 * i)) + 1)%nat with (S (S (2 * i + 1))) by lia.
    cbn [as_complex nth]. apply IH. lia.
Qed.

Lemma volk_convert_length (buf : list Z) (s : spec_float) (k : nat) :
  (k <= length buf)%nat -> length (volk_16i_s32f_convert_32f buf s k) = k.
Proof.
  intros H. unfold volk_16i_s32f_convert_32f.
  rewrite length_map, length_firstn. lia.
Qed.

Lemma volk_convert_nth (buf : list Z) (s : spec_float) (k i : nat) :
  (i < k)%nat -> (k <= length buf)%nat ->
  nth i (volk_16i_s32f_convert_32f buf s k) Float32.zero
  = convert_16i_32f s (nth i buf 0).
Proof.
  intros Hi Hk. unfold volk_16i_s32f_convert_32f.
  rewrite (nth_indep _ Float32.zero (convert_16i_32f s 0))
    by (rewrite length_map, length_firstn; lia).
  rewrite map_nth. f_equal.
  rewrite <- (firstn_skipn k buf) at 2.
  rewrite app_nth1 by (rewrite length_firstn; lia). reflexivity.
Qed.

(** What a completing cycle does to a consistent adapter, in one statement. *)
Lemma work_completes (c : cycle) (st : adapter) :
  consistent st -> completes c st ->
  exists st',
    consistent st' /\
    _conv_buf_size st' = Z.max (_conv_buf_size st) (noutput_items c) /\
    _use_metadata st' = _use_metadata st /\
    _consecutive_failures st' =
      (if rx_ret c =? 0 then 0 else wrap32 (_consecutive_failures st + 1)) /\
    work c st =
      (if negb (rx_ret c =? 0) && (MAX_CONSECUTIVE_FAILURES <=? _consecutive_failures st')
       then Returned WORK_DONE []
       else Returned (noutput_items c)
              (as_complex (volk_16i_s32f_convert_32f (_conv_buf st') scaling
                             (Z.to_nat (2 * noutput_items c)))),
       st').
Proof.
  intros Hc [Hin Hre].
  unfold in_contract in Hin. apply andb_true_iff in Hin as [Hn0 Hn1].
  apply Z.leb_le in Hn0. apply Z.ltb_lt in Hn1.
  destruct (ensure_capacity_grown c st Hre Hn0 Hc)
    as (st1 & Hgrow & Hc1 & Hsize & Hfail & Hmeta & Hkeep).
  unfold work, in_contract.
  replace (0 <=? noutput_items c) with true by (symmetry; now apply Z.leb_le).
  replace (noutput_items c <? 2 ^ 30) with true by (symmetry; now apply Z.ltb_lt).
  cbn [andb negb]. rewrite Hgrow.
  rewrite (capacity_consistent st1 Hc1).
  replace (_conv_buf_size st1 <? noutput_items c) with false
    by (symmetry; apply Z.ltb_ge; lia).
  pose proof (bladerf_sync_rx_length c (_conv_buf st1) (noutput_items c) (meta_ptr st1)) as Hlen.
  unfold bladerf_sync_rx in *. cbn [snd] in Hlen.
  set (buf := _ ++ _) in *.
  assert (Hbuf : Z.of_nat (length buf) = 2 * _conv_buf_size st1).
  { rewrite Hlen; [exact Hc1|]. unfold consistent in Hc1. lia. }
  unfold count_failure. cbn [_consecutive_failures set_conv_buf].
  destruct (rx_ret c =? 0); cbn [negb andb].
  - exists (set_consecutive_failures (set_conv_buf st1 buf) 0).
    repeat split; try assumption; try reflexivity.
  - set (st3 := set_consecutive_failures _ _).
    exists st3. repeat split; try assumption; try (subst st3; cbn; congruence).
    destruct (MAX_CONSECUTIVE_FAILURES <=? _consecutive_failures st3); reflexivity.
Qed.

Lemma wrap32_small (z : Z) : 0 <= z < 2 ^ 32 -> wrap32 z = z.
Proof. intros H. unfold wrap32. now apply Z.mod_small. Qed.

Lemma wrap32_range (z : Z) : 0 <= wrap32 z < 2 ^ 32.
Proof. unfold wrap32. apply Z.mod_pos_bound. lia. Qed.

Lemma in_contract_not_done (n : Z) : in_contract n = true -> n <> WORK_DONE.
Proof.
  unfold in_contract, WORK_DONE. intros H.
  apply andb_true_iff in H as [H _]. apply Z.leb_le in H. lia.
Qed.

(** A cycle whose transfer succeeds. *)
Lemma work_success (c : cycle) (st : adapter) :
  consistent st -> completes c st -> rx_ret c = 0 ->
  exists st',
    work c st = (Returned (noutput_items c) (converted st' (noutput_items c)), st') /\
    consistent st' /\ _consecutive_failures st' = 0.
Proof.
  intros Hc Hb Hret.
  destruct (work_completes c st Hc Hb) as (st' & Hc' & _ & _ & Hcnt & Hw).
  rewrite Hret in Hcnt, Hw. cbn in Hcnt, Hw.
  exists st'. repeat split; assumption.
Qed.

(** A cycle whose transfer fails. *)
Lemma work_failure (c : cycle) (st : adapter) :
  consistent st -> completes c st -> rx_ret c <> 0 ->
  exists st',
    consistent st' /\
    _consecutive_failures st' = wrap32 (_consecutive_failures st + 1) /\
    work c st =
      (if MAX_CONSECUTIVE_FAILURES <=? _consecutive_failures st'
       then Returned WORK_DONE []
       else Returned (noutput_items c) (converted st' (noutput_items c)),
       st').
Proof.
  intros Hc Hb Hret.
  destruct (work_completes c st Hc Hb) as (st' & Hc' & _ & _ & Hcnt & Hw).
  apply Z.eqb_neq in Hret. rewrite Hret in Hcnt, Hw. cbn [negb andb] in Hw.
  exists st'. repeat split; assumption.
Qed.

Lemma run_cons_returned (c : cycle) (cs : list cycle) (st st' : adapter) ret out :
  work c st = (Returned ret out, st') ->
  run (c :: cs) st = (Returned ret out :: fst (run cs st'), snd (run cs st')).
Proof.
  intros H. cbn [run]. rewrite H. now destruct (run cs st').
Qed.

(** One failing cycle inside a run, with the counter known. *)
Lemma run_failure (c : cycle) (cs : list cycle) (st : adapter) (k : Z) :
  consistent st -> completes c st -> rx_ret c <> 0 ->
  _consecutive_failures st = k -> 0 <= k -> k + 1 < 2 ^ 32 ->
  exists st',
    consistent st' /\ _consecutive_failures st' = k + 1 /\
    _conv_buf_size st' = Z.max (_conv_buf_size st) (noutput_items c) /\
    map returned (fst (run (c :: cs) st)) =
      Some (if MAX_CONSECUTIVE_FAILURES <=? k + 1 then WORK_DONE else noutput_items c)
      :: map returned (fst (run cs st')) /\
    snd (run (c :: cs) st) = snd (run cs st').
Proof.
  intros Hc Hb Hret Hk Hk0 Hk1.
  destruct (work_completes c st Hc Hb) as (st' & Hc' & Hsz & _ & Hcnt & Hw).
  apply Z.eqb_neq in Hret. rewrite Hret in Hcnt, Hw. cbn [negb andb] in Hw.
  rewrite Hk, wrap32_small in Hcnt by lia.
  exists st'. repeat split; try assumption.
  - rewrite Hcnt in Hw.
    destruct (MAX_CONSECUTIVE_FAILURES <=? k + 1);
      rewrite (run_cons_returned _ _ _ _ _ _ Hw); reflexivity.
  - rewrite Hcnt in Hw.
    destruct (MAX_CONSECUTIVE_FAILURES <=? k + 1);
      rewrite (run_cons_returned _ _ _ _ _ _ Hw); reflexivity.
Qed.

(** One succeeding cycle inside a run. *)
Lemma run_success (c : cycle) (cs : list cycle) (st : adapter) :
  consistent st -> completes c st -> rx_ret c = 0 ->
  exists st',
    consistent st' /\ _consecutive_failures st' = 0 /\
    _conv_buf_size st' = Z.max (_conv_buf_size st) (noutput_items c) /\
    work c st = (Returned (noutput_items c) (converted st' (noutput_items c)), st') /\
    map returned (fst (run (c :: cs) st)) =
      Some (noutput_items c) :: map returned (fst (run cs st')) /\
    snd (run (c :: cs) st) = snd (run cs st').
Proof.
  intros Hc Hb Hret.
  destruct (work_completes c st Hc Hb) as (st' & Hc' & Hsz & _ & Hcnt & Hw).
  rewrite Hret in Hcnt, Hw. cbn in Hcnt, Hw.
  exists st'. repeat split; try assumption;
    rewrite (run_cons_returned _ _ _ _ _ _ Hw); reflexivity.
Qed.


(** ** The failure counter across cycles *)

(** C4: a work cycle whose transfer succeeds resets the consecutive-failure
    counter to 0 whatever it was before; a failure following that success
    does not end the stream: the first and the second failure after it still
    return their sample counts, and only the third returns [WORK_DONE]. *)
Theorem success_resets_failure_count (s f1 f2 f3 : cycle) (st : adapter) :
  consistent st -> benign s -> benign f1 -> benign f2 -> benign f3 ->
  rx_ret s = 0 -> rx_ret f1 <> 0 -> rx_ret f2 <> 0 -> rx_ret f3 <> 0 ->
  _consecutive_failures (snd (work s st)) = 0 /\
  map returned (fst (run [s; f1; f2; f3] st)) =
    [Some (noutput_items s); Some (noutput_items f1); Some (noutput_items f2);
     Some WORK_DONE] /\
  noutput_items f1 <> WORK_DONE /\ noutput_items f2 <> WORK_DONE.
Proof.
  intros Hc Hs H1 H2 H3 Rs R1 R2 R3.
  destruct (run_success s [f1; f2; f3] st Hc (benign_completes s st Hs) Rs)
    as (st1 & Hc1 & K1 & _ & Hw & Hrun & _).
  destruct (run_failure f1 [f2; f3] st1 0 Hc1 (benign_completes f1 st1 H1) R1 K1)
    as (st2 & Hc2 & K2 & _ & Hrun1 & _); [lia|lia|].
  destruct (run_failure f2 [f3] st2 1 Hc2 (benign_completes f2 st2 H2) R2 K2)
    as (st3 & Hc3 & K3 & _ & Hrun2 & _); [lia|lia|].
  destruct (run_failure f3 [] st3 2 Hc3 (benign_completes f3 st3 H3) R3 K3)
    as (st4 & Hc4 & K4 & _ & Hrun3 & _); [lia|lia|].
  rewrite Hw. cbn [snd]. split; [exact K1|].
  split.
  - rewrite Hrun, Hrun1, Hrun2, Hrun3. reflexivity.
  - split; apply in_contract_not_done; [apply H1|apply H2].
Qed.

Lemma benign_rx_fail (n : Z) : 0 <= n < 2 ^ 30 -> benign (rx_fail n).
Proof.
  intros H. split; [|reflexivity]. unfold in_contract. cbn [noutput_items rx_fail].
  apply andb_true_iff. split; [apply Z.leb_le|apply Z.ltb_lt]; lia.
Qed.

Lemma benign_rx_ok (n : Z) (f : nat -> Z) : 0 <= n < 2 ^ 30 -> benign (rx_ok n f).
Proof.
  intros H. split; [|reflexivity]. unfold in_contract. cbn [noutput_items rx_ok].
  apply andb_true_iff. split; [apply Z.leb_le|apply Z.ltb_lt]; lia.
Qed.

Lemma consistent_fresh_adapter : consistent fresh_adapter.
Proof. reflexivity. Qed.

Lemma consistent_two_failures_in : consistent two_failures_in.
Proof. vm_compute. reflexivity. Qed.

Lemma success_resets_failure_count_witness :
  _consecutive_failures two_failures_in = 2 /\
  _consecutive_failures (snd (work (rx_ok 1 (fun _ => 7)) two_failures_in)) = 0 /\
  map returned
    (fst (run [rx_ok 1 (fun _ => 7); rx_fail 2; rx_fail 3; rx_fail 1] two_failures_in)) =
    [Some 1; Some 2; Some 3; Some WORK_DONE].
Proof.
  split; [reflexivity|].
  pose proof (success_resets_failure_count
                (rx_ok 1 (fun _ => 7)) (rx_fail 2) (rx_fail 3) (rx_fail 1) two_failures_in
                consistent_two_failures_in
                (benign_rx_ok 1 _ ltac:(lia)) (benign_rx_fail 2 ltac:(lia))
                (benign_rx_fail 3 ltac:(lia)) (benign_rx_fail 1 ltac:(lia))
                eq_refl ltac:(discriminate) ltac:(discriminate) ltac:(discriminate))
    as (H0 & Hrun & _).
  split; [exact H0|exact Hrun].
Defined.

(** ** Conversion after a failed transfer *)

(** What [converted] holds, sample by sample. *)
Lemma converted_spec (st : adapter) (n : Z) :
  0 <= n -> 2 * n <= Z.of_nat (length (_conv_buf st)) ->
  Z.of_nat (length (converted st n)) = n /\
  forall i, (i < length (converted st n))%nat ->
    nth i (converted st n) (Float32.zero, Float32.zero) =
      (convert_16i_32f scaling (nth (2 * i) (_conv_buf st) 0),
       convert_16i_32f scaling (nth (2 * i + 1) (_conv_buf st) 0)).
Proof.
  intros Hn Hlen. unfold converted.
  assert (Hk : (Z.to_nat (2 * n) <= length (_conv_buf st))%nat) by lia.
  pose proof (volk_convert_length (_conv_buf st) scaling _ Hk) as Hvl.
  assert (Hcl : length (as_complex (volk_16i_s32f_convert_32f (_conv_buf st) scaling
                                      (Z.to_nat (2 * n)))) = Z.to_nat n).
  { apply as_complex_length. rewrite Hvl. lia. }
  split; [rewrite Hcl; lia|].
  intros i Hi. rewrite Hcl in Hi.
  rewrite as_complex_nth by (rewrite Hvl; lia).
  rewrite !volk_convert_nth by lia. reflexivity.
Qed.

(** The block before a cycle is still what is converted when the failed
    transfer stored nothing and the block did not have to grow: the samples
    emitted are stale. *)
Lemma failed_transfer_converts_stale_data (c : cycle) (st : adapter) :
  consistent st -> benign c -> rx_ret c <> 0 -> rx_stored c = 0%nat ->
  noutput_items c <= _conv_buf_size st ->
  _conv_buf (snd (work c st)) = _conv_buf st.
Proof.
  intros Hc [Hin Hre] Hret Hst Hfit.
  unfold work. rewrite Hin. cbn [negb].
  unfold ensure_capacity.
  replace (_conv_buf_size st <? noutput_items c) with false
    by (symmetry; apply Z.ltb_ge; exact Hfit).
  rewrite (capacity_consistent st Hc).
  replace (_conv_buf_size st <? noutput_items c) with false
    by (symmetry; apply Z.ltb_ge; exact Hfit).
  pose proof (bladerf_sync_rx_nothing_stored c (_conv_buf st) (noutput_items c)
                (meta_ptr st) Hret Hst) as Hsame.
  destruct (bladerf_sync_rx c (_conv_buf st) (noutput_items c) (meta_ptr st))
    as [ret buf] eqn:E.
  cbn [snd] in Hsame. subst buf.
  unfold count_failure.
  destruct (negb (ret =? 0)); cbn [set_conv_buf set_consecutive_failures _conv_buf
    _conv_buf_size _consecutive_failures _use_metadata].
  - destruct (MAX_CONSECUTIVE_FAILURES <=? _); reflexivity.
  - reflexivity.
Qed.

(** ** Three failures in a row *)

(** Against C1 as stated: the invocation that follows three consecutive
    failed transfers returns a sample count when its own transfer succeeds: here the fourth invocation
    returns 1, and the counter, at 3 before it, is back at 0 after it. *)
Lemma cycle_after_three_failures_returns_samples :
  let st3 := snd (run [rx_fail 1; rx_fail 1; rx_fail 1] fresh_adapter) in
  _consecutive_failures st3 = 3 /\
  map returned (fst (run [rx_fail 1; rx_fail 1; rx_fail 1; rx_ok 1 (fun _ => 0)]
                       fresh_adapter)) =
    [Some 1; Some 1; Some WORK_DONE; Some 1] /\
  returned (fst (work (rx_ok 1 (fun _ => 0)) st3)) <> Some WORK_DONE.
Proof.
  cbv zeta. split; [vm_compute; reflexivity|].
  split; [vm_compute; reflexivity|].
  vm_compute. discriminate.
Qed.

(** C1 (amended): counting from a counter of 0, the invocation in which the
    third consecutive transfer fails is the one that returns [WORK_DONE]; the
    two failing invocations before it return their sample counts.  The
    invocation after it returns [WORK_DONE] again when its transfer fails
    too, and its sample count when its transfer succeeds. *)
Theorem third_failure_returns_done (f1 f2 f3 c4 : cycle) (st : adapter) :
  consistent st -> _consecutive_failures st = 0 ->
  benign f1 -> benign f2 -> benign f3 -> benign c4 ->
  rx_ret f1 <> 0 -> rx_ret f2 <> 0 -> rx_ret f3 <> 0 ->
  map returned (fst (run [f1; f2; f3; c4] st)) =
    [Some (noutput_items f1); Some (noutput_items f2); Some WORK_DONE;
     Some (if rx_ret c4 =? 0 then noutput_items c4 else WORK_DONE)] /\
  noutput_items f1 <> WORK_DONE /\ noutput_items f2 <> WORK_DONE /\
  noutput_items c4 <> WORK_DONE.
Proof.
  intros Hc K0 H1 H2 H3 H4 R1 R2 R3.
  destruct (run_failure f1 [f2; f3; c4] st 0 Hc (benign_completes f1 st H1) R1 K0)
    as (st1 & Hc1 & K1 & _ & Hrun1 & _); [lia|lia|].
  destruct (run_failure f2 [f3; c4] st1 1 Hc1 (benign_completes f2 st1 H2) R2 K1)
    as (st2 & Hc2 & K2 & _ & Hrun2 & _); [lia|lia|].
  destruct (run_failure f3 [c4] st2 2 Hc2 (benign_completes f3 st2 H3) R3 K2)
    as (st3 & Hc3 & K3 & _ & Hrun3 & _); [lia|lia|].
  split.
  - rewrite Hrun1, Hrun2, Hrun3. cbn [Z.leb Z.add Z.compare Pos.compare
      Pos.compare_cont MAX_CONSECUTIVE_FAILURES Pos.add].
    do 3 f_equal.
    destruct (Z.eqb_spec (rx_ret c4) 0) as [R4|R4].
    + destruct (run_success c4 [] st3 Hc3 (benign_completes c4 st3 H4) R4)
        as (st4 & _ & _ & _ & _ & Hrun4 & _).
      exact Hrun4.
    + destruct (run_failure c4 [] st3 3 Hc3 (benign_completes c4 st3 H4) R4 K3)
        as (st4 & _ & _ & _ & Hrun4 & _); [lia|lia|].
      exact Hrun4.
  - repeat split; apply in_contract_not_done; [apply H1|apply H2|apply H4].
Qed.

Lemma third_failure_returns_done_witness :
  map returned
    (fst (run [rx_fail 1; rx_fail 2; rx_fail 1; rx_ok 2 (fun _ => 5)] fresh_adapter)) =
    [Some 1; Some 2; Some WORK_DONE; Some 2].
Proof.
  exact (proj1 (third_failure_returns_done
                  (rx_fail 1) (rx_fail 2) (rx_fail 1) (rx_ok 2 (fun _ => 5)) fresh_adapter
                  consistent_fresh_adapter eq_refl
                  (benign_rx_fail 1 ltac:(lia)) (benign_rx_fail 2 ltac:(lia))
                  (benign_rx_fail 1 ltac:(lia)) (benign_rx_ok 2 _ ltac:(lia))
                  ltac:(discriminate) ltac:(discriminate) ltac:(discriminate))).
Defined.

(** ** After [WORK_DONE] *)

(** Against C2 as stated: after [WORK_DONE] has been returned, an invocation
    whose transfer succeeds returns a positive sample count: here 2, with the two samples
    converted, and the counter back at 0. *)
Lemma done_is_not_latched :
  let st3 := snd (run [rx_fail 2; rx_fail 2; rx_fail 2] fresh_adapter) in
  returned (last (fst (run [rx_fail 2; rx_fail 2; rx_fail 2] fresh_adapter)) Undefined)
    = Some WORK_DONE /\
  MAX_CONSECUTIVE_FAILURES <= _consecutive_failures st3 /\
  fst (work (rx_ok 2 (fun _ => 2048)) st3) =
    Returned 2 [(Float32.one, Float32.one); (Float32.one, Float32.one)] /\
  0 < 2 /\
  _consecutive_failures (snd (work (rx_ok 2 (fun _ => 2048)) st3)) = 0.
Proof.
  cbv zeta. repeat split; try (vm_compute; reflexivity).
  vm_compute. discriminate.
Qed.

Lemma run_single (c : cycle) (st : adapter) :
  consistent st -> benign c ->
  0 <= _consecutive_failures st -> _consecutive_failures st + 1 < 2 ^ 32 ->
  map returned (fst (run [c] st)) =
    [Some (if rx_ret c =? 0 then noutput_items c
           else if MAX_CONSECUTIVE_FAILURES <=? _consecutive_failures st + 1
                then WORK_DONE else noutput_items c)] /\
  _consecutive_failures (snd (run [c] st)) =
    (if rx_ret c =? 0 then 0 else _consecutive_failures st + 1).
Proof.
  intros Hc Hb Hk0 Hk1.
  destruct (Z.eqb_spec (rx_ret c) 0) as [R|R].
  - destruct (run_success c [] st Hc (benign_completes c st Hb) R)
      as (st' & _ & K & _ & _ & Hrun & Hst).
    rewrite Hrun, Hst. split; [reflexivity|exact K].
  - destruct (run_failure c [] st _ Hc (benign_completes c st Hb) R eq_refl Hk0 Hk1)
      as (st' & _ & K & _ & Hrun & Hst).
    rewrite Hrun, Hst. split; [reflexivity|exact K].
Qed.

(** C2 (amended): once the consecutive-failure counter has reached the
    threshold, every further invocation returns [WORK_DONE] for as long as
    the transfers keep failing (the counter, an unsigned integer, not having
    wrapped around); the state is not latched: the first later invocation
    whose transfer succeeds returns its sample count and resets the counter
    to 0. *)
Theorem done_repeats_while_transfers_fail (cs : list cycle) (c : cycle) (st : adapter) :
  consistent st ->
  MAX_CONSECUTIVE_FAILURES <= _consecutive_failures st ->
  _consecutive_failures st + Z.of_nat (length cs) + 1 < 2 ^ 32 ->
  Forall benign cs -> Forall (fun f => rx_ret f <> 0) cs -> benign c ->
  map returned (fst (run (cs ++ [c]) st)) =
    repeat (Some WORK_DONE) (length cs) ++
    [Some (if rx_ret c =? 0 then noutput_items c else WORK_DONE)] /\
  _consecutive_failures (snd (run (cs ++ [c]) st)) =
    (if rx_ret c =? 0 then 0
     else _consecutive_failures st + Z.of_nat (length cs) + 1) /\
  noutput_items c <> WORK_DONE.
Proof.
  intros Hc Hk Hw Hb Hf Hbc.
  assert (Hnd : noutput_items c <> WORK_DONE) by (apply in_contract_not_done, Hbc).
  revert st Hc Hk Hw.
  induction cs as [|f cs IH]; intros st Hc Hk Hw.
  - cbn [app length repeat Z.of_nat] in *.
    unfold MAX_CONSECUTIVE_FAILURES in Hk.
    destruct (run_single c st Hc Hbc) as [Hr Hs]; [lia|lia|].
    rewrite Hr, Hs.
    replace (MAX_CONSECUTIVE_FAILURES <=? _consecutive_failures st + 1) with true
      by (symmetry; apply Z.leb_le; unfold MAX_CONSECUTIVE_FAILURES; lia).
    repeat split; try assumption.
    destruct (rx_ret c =? 0); [reflexivity|lia].
  - inversion Hb as [|? ? Hbf Hb']; subst.
    inversion Hf as [|? ? Hff Hf']; subst.
    cbn [length] in Hw. rewrite Nat2Z.inj_succ in Hw.
    unfold MAX_CONSECUTIVE_FAILURES in Hk.
    destruct (run_failure f (cs ++ [c]) st _ Hc (benign_completes f st Hbf) Hff eq_refl)
      as (st' & Hc' & K' & _ & Hrun & Hst); [lia|lia|].
    destruct (IH Hb' Hf' st' Hc') as (IHr & IHs & _);
      [unfold MAX_CONSECUTIVE_FAILURES; lia|lia|].
    cbn [app length repeat]. rewrite Hrun, Hst, IHr, IHs.
    replace (MAX_CONSECUTIVE_FAILURES <=? _consecutive_failures st + 1) with true
      by (symmetry; apply Z.leb_le; unfold MAX_CONSECUTIVE_FAILURES; lia).
    repeat split; try assumption.
    destruct (rx_ret c =? 0); [reflexivity|].
    rewrite K', Nat2Z.inj_succ. lia.
Qed.

Lemma done_repeats_while_transfers_fail_witness :
  map returned
    (fst (run ([rx_fail 1; rx_fail 2] ++ [rx_ok 1 (fun _ => 0)]) three_failures_in)) =
    [Some WORK_DONE; Some WORK_DONE; Some 1].
Proof.
  refine (proj1 (done_repeats_while_transfers_fail
                   [rx_fail 1; rx_fail 2] (rx_ok 1 (fun _ => 0)) three_failures_in
                   _ _ _ _ _ _)).
  - vm_compute. reflexivity.
  - vm_compute. discriminate.
  - vm_compute. reflexivity.
  - repeat constructor.
  - repeat constructor; discriminate.
  - apply benign_rx_ok. lia.
Defined.

(** ** Range of the failure counter *)

Lemma ensure_capacity_counter (c : cycle) (st : adapter) :
  match ensure_capacity c st with
  | Grown st1 | ReallocFailed st1 =>
      _consecutive_failures st1 = _consecutive_failures st
  end.
Proof.
  unfold ensure_capacity.
  destruct (_conv_buf_size st <? noutput_items c); [|reflexivity].
  destruct (realloc_fails c); reflexivity.
Qed.

(** How one invocation, of any kind, moves the counter. *)
Lemma work_counter (c : cycle) (st : adapter) :
  _consecutive_failures (snd (work c st)) = _consecutive_failures st /\
    (forall n out, fst (work c st) <> Returned n out)
  \/ _consecutive_failures (snd (work c st)) = 0
  \/ _consecutive_failures (snd (work c st)) = wrap32 (_consecutive_failures st + 1) /\
     (MAX_CONSECUTIVE_FAILURES <= _consecutive_failures (snd (work c st)) ->
      fst (work c st) = Returned WORK_DONE []).
Proof.
  unfold work.
  destruct (in_contract (noutput_items c)); cbn [negb];
    [|left; split; [reflexivity|discriminate]].
  pose proof (ensure_capacity_counter c st) as Hk.
  destruct (ensure_capacity c st) as [st1|st1];
    [|left; split; [exact Hk|discriminate]].
  destruct (capacity st1 <? noutput_items c);
    [left; split; [exact Hk|discriminate]|].
  unfold bladerf_sync_rx, count_failure.
  cbn [set_conv_buf _consecutive_failures].
  destruct (rx_ret c =? 0); cbn [negb].
  - right; left. reflexivity.
  - right; right. rewrite <- Hk. destruct st1 as [b sz k um].
    cbn [_consecutive_failures set_consecutive_failures].
    destruct (MAX_CONSECUTIVE_FAILURES <=? wrap32 (k + 1)) eqn:E;
      cbn [fst snd _consecutive_failures].
    + split; [reflexivity|intros _; reflexivity].
    + split; [reflexivity|]. apply Z.leb_gt in E. intros H; cbn [_consecutive_failures set_consecutive_failures] in H; exfalso; lia.
Qed.

(** The counter never goes below 0, whatever the sequence of invocations. *)
Lemma failure_count_nonneg (st0 st : adapter) :
  0 <= _consecutive_failures st0 -> reachable st0 st ->
  0 <= _consecutive_failures st.
Proof.
  intros H0 Hr. induction Hr as [|st c Hr IH]; [exact H0|].
  destruct (work_counter c st) as [[H _]|[H|[H _]]]; rewrite H.
  - exact IH.
  - lia.
  - apply wrap32_range.
Qed.

(** While the stream is live the counter is below the threshold. *)
Lemma streaming_below_threshold (st0 st : adapter) :
  _consecutive_failures st0 = 0 -> streaming st0 st ->
  0 <= _consecutive_failures st < MAX_CONSECUTIVE_FAILURES.
Proof.
  intros H0 Hs. induction Hs as [|st st' c ret out Hs IH Hw Hnd].
  - rewrite H0. unfold MAX_CONSECUTIVE_FAILURES. lia.
  - pose proof (work_counter c st) as Hk. rewrite Hw in Hk. cbn [fst snd] in Hk.
    unfold MAX_CONSECUTIVE_FAILURES in *.
    destruct Hk as [[_ Hno]|[Hk|[Hk Hdone]]].
    + exfalso. apply (Hno ret out). reflexivity.
    + lia.
    + assert (Hsmall : wrap32 (_consecutive_failures st + 1) = _consecutive_failures st + 1)
        by (apply wrap32_small; lia).
      rewrite Hsmall in Hk.
      destruct (Z_lt_le_dec (_consecutive_failures st') 3) as [Hlt|Hge]; [lia|].
      specialize (Hdone Hge). congruence.
Qed.

(** Against C3 as stated: a fourth failure in a row takes the counter to 4,
    above the threshold. *)
Lemma fourth_failure_exceeds_threshold :
  let st4 :=
    snd (work (rx_fail 1) (snd (work (rx_fail 1) (snd (work (rx_fail 1)
      (snd (work (rx_fail 1) fresh_adapter))))))) in
  reachable fresh_adapter st4 /\
  _consecutive_failures st4 = 4 /\
  ~ (0 <= _consecutive_failures st4 <= MAX_CONSECUTIVE_FAILURES).
Proof.
  cbv zeta. split; [do 4 apply reachable_work; apply reachable_start|].
  split; [vm_compute; reflexivity|].
  vm_compute. intros [_ H]. apply H. reflexivity.
Qed.

(** C3 (amended): starting from a counter of 0, in every state reachable
    while the scheduler behaves as GNU Radio's does -- no invocation follows
    one that returned [WORK_DONE] or did not return -- the counter lies in
    [0, threshold]. *)
Theorem failure_count_within_threshold (st0 st : adapter) :
  _consecutive_failures st0 = 0 -> scheduled st0 st ->
  0 <= _consecutive_failures st <= MAX_CONSECUTIVE_FAILURES.
Proof.
  intros H0 Hs. destruct Hs as [st Hl|st c Hl].
  - pose proof (streaming_below_threshold st0 st H0 Hl). lia.
  - pose proof (streaming_below_threshold st0 st H0 Hl) as Hb.
    unfold MAX_CONSECUTIVE_FAILURES in *.
    destruct (work_counter c st) as [[H _]|[H|[H _]]]; rewrite H.
    + lia.
    + lia.
    + rewrite wrap32_small by lia. lia.
Qed.

Lemma streaming_two_failures_in : streaming fresh_adapter two_failures_in.
Proof.
  eapply streaming_work with (c := rx_fail 1) (ret := 1);
    [eapply streaming_work with (c := rx_fail 1) (ret := 1);
      [apply streaming_start|vm_compute; reflexivity|discriminate]
    |vm_compute; reflexivity|discriminate].
Qed.

Lemma failure_count_within_threshold_witness :
  _consecutive_failures (snd (work (rx_fail 1) two_failures_in)) = 3 /\
  0 <= _consecutive_failures (snd (work (rx_fail 1) two_failures_in))
    <= MAX_CONSECUTIVE_FAILURES.
Proof.
  split; [vm_compute; reflexivity|].
  apply (failure_count_within_threshold fresh_adapter).
  - reflexivity.
  - apply scheduled_last. exact streaming_two_failures_in.
Defined.

(** ** Capacity of the scratch block *)

(** An invocation that returns got as far as the transfer. *)
Lemma returned_completes (c : cycle) (st st' : adapter) ret out :
  work c st = (Returned ret out, st') -> completes c st.
Proof.
  unfold work, completes.
  destruct (in_contract (noutput_items c)); cbn [negb]; [|discriminate].
  intros H. split; [reflexivity|].
  unfold ensure_capacity in H.
  destruct (Z.ltb_spec (_conv_buf_size st) (noutput_items c)) as [Hlt|Hge];
    [|left; exact Hge].
  destruct (realloc_fails c); [discriminate|right; reflexivity].
Qed.

Lemma work_returned_consistent (c : cycle) (st st' : adapter) ret out :
  consistent st -> work c st = (Returned ret out, st') ->
  consistent st' /\ _conv_buf_size st' = Z.max (_conv_buf_size st) (noutput_items c).
Proof.
  intros Hc Hw.
  destruct (work_completes c st Hc (returned_completes _ _ _ _ _ Hw))
    as (st'' & Hc'' & Hsz & _ & _ & Hw').
  rewrite Hw in Hw'.
  assert (st' = st'') by (destruct (_ && _) in Hw'; congruence).
  subst st''. split; assumption.
Qed.

Lemma executed_consistent (st0 st : adapter) :
  consistent st0 -> executed st0 st ->
  consistent st /\ capacity st0 <= capacity st.
Proof.
  intros H0 He. induction He as [|st st' c ret out He IH Hw].
  - split; [exact H0|lia].
  - destruct IH as [Hc Hle].
    destruct (work_returned_consistent c st st' ret out Hc Hw) as [Hc' Hsz].
    split; [exact Hc'|].
    rewrite (capacity_consistent st' Hc'), Hsz.
    rewrite (capacity_consistent st Hc) in Hle. lia.
Qed.

(** Whatever its outcome, an invocation does not shrink the block. *)
Lemma work_capacity_monotone (c : cycle) (st : adapter) :
  consistent st -> capacity st <= capacity (snd (work c st)).
Proof.
  intros Hc.
  destruct (in_contract (noutput_items c)) eqn:Hin.
  - destruct (Z.ltb_spec (_conv_buf_size st) (noutput_items c)) as [Hlt|Hge].
    + destruct (realloc_fails c) eqn:Hre.
      * unfold work, ensure_capacity. rewrite Hin. cbn [negb].
        replace (_conv_buf_size st <? noutput_items c) with true
          by (symmetry; apply Z.ltb_lt; exact Hlt).
        rewrite Hre. cbn [snd]. unfold capacity.
        cbn [_conv_buf set_conv_buf_size]. lia.
      * destruct (work_completes c st Hc (conj Hin (or_intror Hre)))
          as (st' & Hc' & Hsz & _ & _ & Hw).
        rewrite Hw. cbn [snd].
        rewrite (capacity_consistent st Hc), (capacity_consistent st' Hc'). lia.
    + destruct (work_completes c st Hc (conj Hin (or_introl Hge)))
        as (st' & Hc' & Hsz & _ & _ & Hw).
      rewrite Hw. cbn [snd].
      rewrite (capacity_consistent st Hc), (capacity_consistent st' Hc'). lia.
  - unfold work. rewrite Hin. cbn [negb snd]. lia.
Qed.

(** The block handed to the transfer holds the request. *)
Lemma capacity_at_transfer (c : cycle) (st st1 : adapter) :
  consistent st -> ensure_capacity c st = Grown st1 ->
  noutput_items c <= capacity st1.
Proof.
  intros Hc Hg. unfold ensure_capacity in Hg.
  destruct (Z.ltb_spec (_conv_buf_size st) (noutput_items c)) as [Hlt|Hge].
  - destruct (realloc_fails c); [discriminate|].
    injection Hg as <-. unfold capacity.
    cbn [_conv_buf _conv_buf_size set_conv_buf set_conv_buf_size].
    rewrite realloc_length.
    pose proof (consistent_size_nonneg st Hc).
    rewrite Z2Nat.id by lia. rewrite Z.div_mul by lia. lia.
  - injection Hg as <-. rewrite (capacity_consistent st Hc). exact Hge.
Qed.

(** Over any sequence of work cycles that all returned, the capacity of the
    conversion buffer at the time a transfer is performed is at least the
    sample count requested in that cycle, and the capacity never decreases
    from one cycle to the next, nor over the whole sequence. *)
Theorem capacity_covers_request_and_never_shrinks (st0 st : adapter) (c : cycle) :
  consistent st0 -> executed st0 st ->
  (forall st1, ensure_capacity c st = Grown st1 -> noutput_items c <= capacity st1) /\
  (forall ret out st', work c st = (Returned ret out, st') ->
     noutput_items c <= capacity st') /\
  capacity st <= capacity (snd (work c st)) /\
  capacity st0 <= capacity st.
Proof.
  intros H0 He.
  destruct (executed_consistent st0 st H0 He) as [Hc Hle].
  split; [intros st1; apply capacity_at_transfer; exact Hc|].
  split.
  - intros ret out st' Hw.
    destruct (work_returned_consistent c st st' ret out Hc Hw) as [Hc' Hsz].
    rewrite (capacity_consistent st' Hc'), Hsz. lia.
  - split; [apply work_capacity_monotone; exact Hc|exact Hle].
Qed.

Lemma executed_two_failures_in : executed fresh_adapter two_failures_in.
Proof.
  eapply executed_work with (c := rx_fail 1);
    [eapply executed_work with (c := rx_fail 1);
      [apply executed_start|vm_compute; reflexivity]
    |vm_compute; reflexivity].
Qed.

Lemma capacity_covers_request_and_never_shrinks_witness :
  capacity two_failures_in = 2 /\
  capacity (snd (work (rx_ok 5 (fun _ => 1)) two_failures_in)) = 5 /\
  capacity two_failures_in <= capacity (snd (work (rx_ok 5 (fun _ => 1)) two_failures_in)).
Proof.
  split; [vm_compute; reflexivity|].
  split; [vm_compute; reflexivity|].
  exact (proj1 (proj2 (proj2
    (capacity_covers_request_and_never_shrinks fresh_adapter two_failures_in
       (rx_ok 5 (fun _ => 1)) consistent_fresh_adapter executed_two_failures_in)))).
Defined.

(** When realloc fails the recorded size has already been raised while the
    block is still the old one: the adapter is left inconsistent, which is
    why the exception has to end the adapter's life. *)
Example realloc_failure_leaves_size_ahead :
  fst (work (no_memory 8) fresh_adapter) = Threw "workFailed to realloc _conv_buf" /\
  _conv_buf_size (snd (work (no_memory 8) fresh_adapter)) = 8 /\
  capacity (snd (work (no_memory 8) fresh_adapter)) = 2.
Proof. repeat split; vm_compute; reflexivity. Qed.

(** C7: after a reallocation that failed, a work cycle with the same
    request performs its transfer on a buffer too small for it.  The adapter
    starts with a buffer of 2 samples; a request for 8 samples finds no
    memory and throws, the recorded size already being 8; the next request
    for 8 samples skips the growth step and reaches the transfer with a
    capacity of 2, although memory would now be available. *)
Theorem transfer_on_short_buffer_after_failed_realloc :
  consistent fresh_adapter /\
  capacity fresh_adapter = 2 /\
  fst (work (no_memory 8) fresh_adapter) = Threw "workFailed to realloc _conv_buf" /\
  _conv_buf_size (snd (work (no_memory 8) fresh_adapter)) = 8 /\
  realloc_fails (rx_ok 8 unit_samples) = false /\
  ensure_capacity (rx_ok 8 unit_samples) (snd (work (no_memory 8) fresh_adapter))
    = Grown (snd (work (no_memory 8) fresh_adapter)) /\
  capacity (snd (work (no_memory 8) fresh_adapter)) = 2 /\
  capacity (snd (work (no_memory 8) fresh_adapter)) < noutput_items (rx_ok 8 unit_samples) /\
  fst (work (rx_ok 8 unit_samples) (snd (work (no_memory 8) fresh_adapter))) = Undefined.
Proof. repeat split; vm_compute; reflexivity. Qed.

(** ** Binary64 arithmetic on integers *)

(** Shifting an even mantissa right by one bit loses nothing. *)
Lemma shr_1_even (q : Z) :
  0 <= q -> shr_1 (Build_shr_record (2 * q) false false) = Build_shr_record q false false.
Proof. intros _. destruct q; reflexivity. Qed.

(** Nor does shifting right by [n] bits a multiple of [2^n]. *)
Lemma iter_shr_1_exact (n : positive) :
  forall q, 0 <= q ->
  iter_pos shr_1 n (Build_shr_record (q * 2 ^ Zpos n) false false)
  = Build_shr_record q false false.
Proof.
  induction n as [n IH|n IH|]; intros q Hq; cbn [iter_pos].
  - replace (q * 2 ^ Zpos n~1) with (2 * ((q * 2 ^ Zpos n) * 2 ^ Zpos n))
      by (change (Zpos n~1) with (2 * Zpos n + 1);
          rewrite Z.pow_add_r, Z.pow_twice_r by lia; ring).
    rewrite shr_1_even by (apply Z.mul_nonneg_nonneg; [apply Z.mul_nonneg_nonneg|]; lia).
    rewrite IH by (apply Z.mul_nonneg_nonneg; lia). apply IH; lia.
  - replace (q * 2 ^ Zpos n~0) with ((q * 2 ^ Zpos n) * 2 ^ Zpos n)
      by (change (Zpos n~0) with (2 * Zpos n); rewrite Z.pow_twice_r; ring).
    rewrite IH by (apply Z.mul_nonneg_nonneg; lia). apply IH; lia.
  - replace (q * 2 ^ 1) with (2 * q) by lia. now apply shr_1_even.
Qed.

(** The number of binary digits of a positive number. *)
Lemma digits2_pos_size (p : positive) : digits2_pos p = Pos.size p.
Proof. induction p; cbn; congruence. Qed.

Lemma digits2_bounds (p : positive) :
  2 ^ (Zpos (digits2_pos p) - 1) <= Zpos p < 2 ^ Zpos (digits2_pos p).
Proof.
  rewrite digits2_pos_size.
  assert (Hgt : Zpos p < 2 ^ Zpos (Pos.size p)).
  { pose proof (Pos.size_gt p) as H. apply Pos2Z.pos_lt_pos in H.
    now rewrite Pos2Z.inj_pow in H. }
  assert (Hle : 2 ^ Zpos (Pos.size p) <= 2 * Zpos p).
  { pose proof (Pos.size_le p) as H. apply Pos2Z.pos_le_pos in H.
    now rewrite Pos2Z.inj_pow in H. }
  split; [|exact Hgt].
  assert (E : 2 ^ Zpos (Pos.size p) = 2 * 2 ^ (Zpos (Pos.size p) - 1)).
  { rewrite <- Z.pow_succ_r by lia. f_equal. lia. }
  lia.
Qed.

Lemma digits2_unique (p : positive) (k : Z) :
  2 ^ (k - 1) <= Zpos p < 2 ^ k -> Zpos (digits2_pos p) = k.
Proof.
  intros [Hlo Hhi]. pose proof (digits2_bounds p) as [Dlo Dhi].
  assert (0 < k). { destruct (Z_lt_le_dec 0 k); [assumption|].
    assert (2 ^ k <= 2 ^ 0) by (destruct (Z_lt_le_dec k 0); [rewrite Z.pow_neg_r by lia; simpl; lia|apply Z.pow_le_mono_r; lia]).
    simpl in *. lia. }
  destruct (Z.lt_trichotomy (Zpos (digits2_pos p)) k) as [Hlt|[Heq|Hgt]]; [|exact Heq|].
  - assert (2 ^ Zpos (digits2_pos p) <= 2 ^ (k - 1)) by (apply Z.pow_le_mono_r; lia). lia.
  - assert (2 ^ k <= 2 ^ (Zpos (digits2_pos p) - 1)) by (apply Z.pow_le_mono_r; lia). lia.
Qed.

Lemma Zdigits2_shifted (m : positive) (k : Z) :
  0 <= k -> Zdigits2 (Zpos m * 2 ^ k) = Zpos (digits2_pos m) + k.
Proof.
  intros Hk.
  assert (Hpos : 0 < Zpos m * 2 ^ k) by (apply Z.mul_pos_pos; [lia|apply Z.pow_pos_nonneg; lia]).
  destruct (Zpos m * 2 ^ k) as [|M|M] eqn:E; try lia.
  cbn [Zdigits2]. apply digits2_unique. rewrite <- E.
  pose proof (digits2_bounds m) as [Lo Hi].
  replace (Zpos (digits2_pos m) + k - 1) with ((Zpos (digits2_pos m) - 1) + k) by lia.
  assert (0 < Zpos (digits2_pos m)) by lia.
  rewrite !Z.pow_add_r by lia.
  assert (0 < 2 ^ k) by (apply Z.pow_pos_nonneg; lia).
  split; [apply Z.mul_le_mono_nonneg_r; lia|apply Z.mul_lt_mono_pos_r; lia].
Qed.

(** Rounding a 53-bit mantissa followed by [k] zero bits is exact. *)
Lemma shr_fexp_exact (m : positive) (k e : Z) :
  Zpos (digits2_pos m) = 53 -> 0 <= k -> -1074 <= e + k ->
  shr_fexp 53 1024 (Zpos m * 2 ^ k) e loc_Exact
  = (Build_shr_record (Zpos m) false false, e + k).
Proof.
  intros Hd Hk He. unfold shr_fexp. rewrite Zdigits2_shifted, Hd by exact Hk.
  unfold fexp, emin. 
  replace (Z.max (53 + k + e - 53) (3 - 1024 - 53) - e) with k by lia.
  unfold shr, shr_record_of_loc.
  destruct k as [|k'|k'].
  - f_equal; [f_equal; lia|lia].
  - rewrite iter_shr_1_exact by lia. reflexivity.
  - lia.
Qed.

Lemma binary_round_aux_exact (s : bool) (m : positive) (k e : Z) :
  Zpos (digits2_pos m) = 53 -> 0 <= k -> -1074 <= e + k <= 971 ->
  binary_round_aux 53 1024 s (Zpos m * 2 ^ k) e loc_Exact = S754_finite s m (e + k).
Proof.
  intros Hd Hk He. unfold binary_round_aux.
  rewrite shr_fexp_exact by (try assumption; lia).
  cbn [shr_m loc_of_shr_record round_nearest_even].
  pose proof (shr_fexp_exact m 0 (e + k) Hd ltac:(lia) ltac:(lia)) as H0.
  replace (Zpos m * 2 ^ 0) with (Zpos m) in H0 by lia.
  rewrite H0. cbn [shr_m].
  replace (e + k + 0 <=? 1024 - 53) with true by (symmetry; apply Z.leb_le; lia).
  f_equal. lia.
Qed.

Lemma iter_xO_pow2 (q d : positive) : Zpos (Pos.iter xO q d) = Zpos q * 2 ^ Zpos d.
Proof.
  rewrite (Pos.iter_swap_gen _ _ Zpos xO (Z.mul 2)) by reflexivity.
  change (Pos.iter (Z.mul 2) (Zpos q) d) with (Z.shiftl (Zpos q) (Zpos d)).
  apply Z.shiftl_mul_pow2. lia.
Qed.

Lemma mantissa53_value (q : positive) :
  Zpos (digits2_pos q) <= 53 ->
  Zpos (mantissa53 q) = Zpos q * 2 ^ (53 - Zpos (digits2_pos q)).
Proof.
  intros H. unfold mantissa53. apply Z2Pos.id.
  apply Z.mul_pos_pos; [lia|apply Z.pow_pos_nonneg; lia].
Qed.

Lemma mantissa53_digits (q : positive) :
  Zpos (digits2_pos q) <= 53 -> Zpos (digits2_pos (mantissa53 q)) = 53.
Proof.
  intros H.
  pose proof (Zdigits2_shifted q (53 - Zpos (digits2_pos q)) ltac:(lia)) as Hd.
  rewrite <- mantissa53_value in Hd by exact H. cbn [Zdigits2] in Hd. lia.
Qed.

(** [q * 2^e] for [q] of at most 53 bits, in canonical form. *)
Lemma binary_round_canonical (s : bool) (q : positive) (e : Z) :
  Zpos (digits2_pos q) <= 53 ->
  -1074 <= Zpos (digits2_pos q) + e - 53 <= 971 ->
  binary_round 53 1024 s q e
  = S754_finite s (mantissa53 q) (Zpos (digits2_pos q) + e - 53).
Proof.
  intros Hd He. unfold binary_round.
  assert (Hf : fexp 53 1024 (Zpos (digits2_pos q) + e) = Zpos (digits2_pos q) + e - 53)
    by (unfold fexp, emin; lia).
  rewrite Hf. unfold shl_align.
  pose proof (mantissa53_value q Hd) as Hv.
  pose proof (mantissa53_digits q Hd) as Hm.
  destruct (Zpos (digits2_pos q) + e - 53 - e) as [|d|d] eqn:E.
  - assert (E53 : Zpos (digits2_pos q) = 53) by lia.
    rewrite E53 in Hv. replace (53 - 53) with 0 in Hv by lia.
    assert (Hq : mantissa53 q = q) by lia. rewrite <- Hq at 1.
    pose proof (binary_round_aux_exact s (mantissa53 q) 0 e Hm ltac:(lia) ltac:(lia)) as H.
    replace (Zpos (mantissa53 q) * 2 ^ 0) with (Zpos (mantissa53 q)) in H by lia.
    rewrite H. f_equal. lia.
  - lia.
  - assert (Hq : Pos.iter xO q d = mantissa53 q).
    { apply Pos2Z.inj. rewrite iter_xO_pow2, Hv. do 2 f_equal. lia. }
    rewrite Hq.
    pose proof (binary_round_aux_exact s (mantissa53 q) 0
                  (Zpos (digits2_pos q) + e - 53) Hm ltac:(lia) ltac:(lia)) as H.
    replace (Zpos (mantissa53 q) * 2 ^ 0) with (Zpos (mantissa53 q)) in H by lia.
    rewrite H. f_equal. lia.
Qed.

Lemma digits2_le (p : positive) (k : Z) :
  Zpos p < 2 ^ k -> Zpos (digits2_pos p) <= k.
Proof.
  intros H. pose proof (digits2_bounds p) as [Lo _].
  destruct (Z_le_gt_dec (Zpos (digits2_pos p)) k) as [|Hgt]; [assumption|].
  assert (2 ^ k <= 2 ^ (Zpos (digits2_pos p) - 1)).
  { destruct (Z_lt_le_dec k 0); [rewrite (Z.pow_neg_r 2 k) by lia; apply Z.pow_nonneg; lia|].
    apply Z.pow_le_mono_r; lia. }
  lia.
Qed.

Lemma digits2_mono (p q : positive) :
  (p <= q)%positive -> Zpos (digits2_pos p) <= Zpos (digits2_pos q).
Proof.
  intros H. apply digits2_le.
  pose proof (digits2_bounds q) as [_ Hi]. lia.
Qed.

(** Three quarters of an integer below [2^32] is computed without rounding. *)
Lemma mul_three_quarters_exact (p : positive) :
  Zpos p < 2 ^ 32 ->
  Float64.mul (Float64.of_int (Zpos p)) Float64.three_quarters
  = Float64.dyadic (Zpos (3 * p)) (-2).
Proof.
  intros Hp.
  pose proof (digits2_le p 32 Hp) as Hd.
  assert (Hd3 : Zpos (digits2_pos (3 * p)) <= 34) by (apply digits2_le; lia).
  assert (Hd3' : Zpos (digits2_pos p) <= Zpos (digits2_pos (3 * p)))
    by (apply digits2_mono; lia).
  assert (0 < Zpos (digits2_pos p)) by lia.
  unfold Float64.mul, Float64.of_int, Float64.dyadic, Float64.three_quarters,
    Float64.prec, Float64.emax, binary_normalize.
  rewrite !binary_round_canonical by lia.
  cbn [SFmul xorb]. 
  set (dg := Zpos (digits2_pos p)) in *. set (dg3 := Zpos (digits2_pos (3 * p))) in *.
  assert (E : Zpos (mantissa53 p * 6755399441055744)
              = Zpos (mantissa53 (3 * p)) * 2 ^ (51 + dg3 - dg)).
  { rewrite Pos2Z.inj_mul, !mantissa53_value by lia. fold dg dg3.
    rewrite Pos2Z.inj_mul.
    change (Zpos 6755399441055744) with (3 * 2 ^ 51).
    replace (Zpos 3 * Zpos p * 2 ^ (53 - dg3) * 2 ^ (51 + dg3 - dg))
      with (3 * Zpos p * (2 ^ (53 - dg3) * 2 ^ (51 + dg3 - dg))) by ring.
    rewrite <- Z.pow_add_r by lia.
    replace (Zpos p * 2 ^ (53 - dg) * (3 * 2 ^ 51))
      with (3 * Zpos p * (2 ^ (53 - dg) * 2 ^ 51)) by ring.
    rewrite <- Z.pow_add_r by lia.
    do 2 f_equal. lia. }
  rewrite E.
  rewrite binary_round_aux_exact by (try apply mantissa53_digits; lia).
  f_equal. lia.
Qed.

(** The conversion to [uint32_t] drops the quarters. *)
Lemma to_uint32_three_quarters (p : positive) :
  Zpos p < 2 ^ 32 ->
  Float64.to_uint32 (Float64.dyadic (Zpos (3 * p)) (-2)) = Some (3 * Zpos p / 4).
Proof.
  intros Hp.
  assert (Hd3 : Zpos (digits2_pos (3 * p)) <= 34) by (apply digits2_le; lia).
  assert (0 < Zpos (digits2_pos (3 * p))) by lia.
  unfold Float64.dyadic, Float64.prec, Float64.emax, binary_normalize.
  rewrite binary_round_canonical by lia.
  unfold Float64.to_uint32, Float64.trunc.
  set (dg3 := Zpos (digits2_pos (3 * p))) in *.
  replace (0 <=? dg3 + -2 - 53) with false by (symmetry; apply Z.leb_gt; lia).
  rewrite Z.shiftr_div_pow2 by lia.
  rewrite mantissa53_value by (fold dg3; lia). fold dg3.
  replace (- (dg3 + -2 - 53)) with ((53 - dg3) + 2) by lia.
  rewrite Z.pow_add_r by lia.
  rewrite Pos2Z.inj_mul. change (2 ^ 2) with 4.
  rewrite (Z.mul_comm (2 ^ (53 - dg3)) 4).
  rewrite Z.div_mul_cancel_r by (try apply Z.pow_nonzero; lia).
  assert (0 <= 3 * Zpos p / 4 < 2 ^ 32).
  { split; [apply Z.div_pos; lia|apply Z.div_lt_upper_bound; lia]. }
  replace (0 <=? Zpos 3 * Zpos p / 4) with true by (symmetry; apply Z.leb_le; lia).
  replace (Zpos 3 * Zpos p / 4 <? 2 ^ 32) with true by (symmetry; apply Z.ltb_lt; lia).
  reflexivity.
Qed.

(** [(uint32_t) (r * 0.75)] for an integral [r] below [2^32]. *)
Lemma auto_bandwidth_of_integral_rate (r : Z) :
  0 <= r < 2 ^ 32 ->
  Float64.to_uint32 (Float64.mul (Float64.of_int r) Float64.three_quarters)
  = Some (3 * r / 4).
Proof.
  intros Hr. destruct r as [|p|p]; [reflexivity| |lia].
  rewrite mul_three_quarters_exact by lia.
  apply to_uint32_three_quarters. lia.
Qed.

(** ** Property accessors *)

Lemma bandwidth_requests_app (t1 t2 : list hw_call) :
  bandwidth_requests (t1 ++ t2) = bandwidth_requests t1 ++ bandwidth_requests t2.
Proof.
  induction t1 as [|c t1 IH]; [reflexivity|].
  destruct c; cbn [app bandwidth_requests]; rewrite IH; reflexivity.
Qed.

(** Reading the bandwidth back asks for nothing to be set. *)
Lemma get_bandwidth_requests {device : Type} `{Hardware device} (chan : Z) (d : device) :
  bandwidth_requests (snd (get_bandwidth chan d)) = [].
Proof.
  unfold get_bandwidth, bind, call_get_bandwidth.
  destruct (negb (fst (bladerf_get_bandwidth d) =? 0)); reflexivity.
Qed.

(** [apply_bandwidth] hands the driver the bandwidth converted to its
    32-bit unsigned parameter, once. *)
Lemma apply_bandwidth_requests {device : Type} `{Hardware device}
  (bandwidth : spec_float) (d : device) :
  bandwidth_requests (snd (apply_bandwidth bandwidth d)) = requested_for bandwidth.
Proof.
  unfold apply_bandwidth, bind, cast_uint32, requested_for.
  destruct (Float64.to_uint32 bandwidth) as [requested|]; [|reflexivity].
  unfold ret, call_set_bandwidth.
  destruct (bladerf_set_bandwidth d requested) as [[status actual] d1].
  destruct (negb (status =? 0)).
  - reflexivity.
  - pose proof (get_bandwidth_requests 0 d1) as Hg.
    destruct (get_bandwidth 0 d1) as [[r d2] t]. cbn [snd] in *.
    cbn [app bandwidth_requests]. now rewrite Hg.
Qed.

(** With argument 0, [set_bandwidth] reads the sample rate and goes on with
    three quarters of it as it would with any bandwidth. *)
Lemma set_bandwidth_zero_unfold {device : Type} `{Hardware device}
  (d d1 : device) (chan : Z) (rate : spec_float) :
  common_get_sample_rate d = (Value rate, d1) ->
  set_bandwidth Float64.zero chan d =
    (let '(r, d2, t) := apply_bandwidth (Float64.mul rate Float64.three_quarters) d1 in
     (r, d2, GetSampleRate :: t)).
Proof.
  intros Hrate. unfold set_bandwidth.
  change (Float64.eqb Float64.zero Float64.zero) with true. cbv iota.
  unfold bind at 1. unfold bind at 1. unfold get_sample_rate. rewrite Hrate.
  unfold ret at 1.
  destruct (apply_bandwidth (Float64.mul rate Float64.three_quarters) d1) as [[r d2] t].
  reflexivity.
Qed.

Lemma set_bandwidth_zero_requests {device : Type} `{Hardware device}
  (d d1 : device) (chan : Z) (rate : spec_float) :
  common_get_sample_rate d = (Value rate, d1) ->
  bandwidth_requests (snd (set_bandwidth Float64.zero chan d))
  = requested_for (Float64.mul rate Float64.three_quarters).
Proof.
  intros Hrate.
  rewrite (set_bandwidth_zero_unfold d d1 chan rate Hrate).
  pose proof (apply_bandwidth_requests (Float64.mul rate Float64.three_quarters) d1) as Hreq.
  destruct (apply_bandwidth (Float64.mul rate Float64.three_quarters) d1) as [[r d2] t].
  cbn [snd bandwidth_requests] in *. exact Hreq.
Qed.

(** [get_bandwidth] asks the driver once and leaves the device as it is. *)
Lemma get_bandwidth_spec {device : Type} `{Hardware device} (chan : Z) (d : device) :
  get_bandwidth chan d =
    (if fst (bladerf_get_bandwidth d) =? 0
     then Value (Float64.of_int (snd (bladerf_get_bandwidth d)))
     else Raised ("get_bandwidth could not get bandwidth:"
                  ++ bladerf_strerror (fst (bladerf_get_bandwidth d))),
     d, [GetBandwidth]).
Proof.
  unfold get_bandwidth, bind, call_get_bandwidth.
  destruct (fst (bladerf_get_bandwidth d) =? 0); reflexivity.
Qed.

(** [apply_bandwidth] in terms of the driver's two calls. *)
Lemma apply_bandwidth_spec {device : Type} `{Hardware device}
  (b : spec_float) (d : device) :
  apply_bandwidth b d =
    match Float64.to_uint32 b with
    | None => (Undef, d, [])
    | Some requested =>
        let '(status, actual, d1) := bladerf_set_bandwidth d requested in
        if status =? 0 then
          (if fst (bladerf_get_bandwidth d1) =? 0
           then Value (Float64.of_int (snd (bladerf_get_bandwidth d1)))
           else Raised ("get_bandwidth could not get bandwidth:"
                        ++ bladerf_strerror (fst (bladerf_get_bandwidth d1))),
           d1, [SetBandwidth requested; GetBandwidth])
        else
          (Raised ("set_bandwidth could not set bandwidth: " ++ bladerf_strerror status),
           d1, [SetBandwidth requested])
    end.
Proof.
  unfold apply_bandwidth, bind, cast_uint32.
  destruct (Float64.to_uint32 b) as [requested|]; [|reflexivity].
  unfold ret at 1. unfold call_set_bandwidth.
  destruct (bladerf_set_bandwidth d requested) as [[status actual] d1].
  destruct (status =? 0); cbn [negb]; [|reflexivity].
  rewrite get_bandwidth_spec. reflexivity.
Qed.

(** C8: [set_bandwidth] with argument 0 computes 0.75 times the current
    sample rate and applies that value to the hardware, whatever the sample
    rate: after reading the rate it calls [bladerf_set_bandwidth] on the
    device with that product (converted to the driver's 32-bit unsigned
    parameter) and with nothing else, the device is left as that call leaves
    it, and the outcome is the bandwidth read back from it, or the error of
    the call that failed.  Where the conversion of the product is undefined
    no call is made. *)
Theorem set_bandwidth_zero_applies_three_quarters_of_rate
  {device : Type} `{Hardware device}
  (d d1 : device) (chan : Z) (rate : spec_float) :
  common_get_sample_rate d = (Value rate, d1) ->
  set_bandwidth Float64.zero chan d =
    match Float64.to_uint32 (Float64.mul rate Float64.three_quarters) with
    | None => (Undef, d1, [GetSampleRate])
    | Some requested =>
        let '(status, actual, d2) := bladerf_set_bandwidth d1 requested in
        if status =? 0 then
          (if fst (bladerf_get_bandwidth d2) =? 0
           then Value (Float64.of_int (snd (bladerf_get_bandwidth d2)))
           else Raised ("get_bandwidth could not get bandwidth:"
                        ++ bladerf_strerror (fst (bladerf_get_bandwidth d2))),
           d2, [GetSampleRate; SetBandwidth requested; GetBandwidth])
        else
          (Raised ("set_bandwidth could not set bandwidth: " ++ bladerf_strerror status),
           d2, [GetSampleRate; SetBandwidth requested])
    end /\
  set_bandwidth Float64.zero chan d =
    (let '(r, d2, t) := apply_bandwidth (Float64.mul rate Float64.three_quarters) d1 in
     (r, d2, GetSampleRate :: t)) /\
  bandwidth_requests (snd (set_bandwidth Float64.zero chan d))
  = requested_for (Float64.mul rate Float64.three_quarters).
Proof.
  intros Hrate.
  pose proof (set_bandwidth_zero_unfold d d1 chan rate Hrate) as Hu.
  split; [|split; [exact Hu|exact (set_bandwidth_zero_requests d d1 chan rate Hrate)]].
  rewrite Hu, apply_bandwidth_spec.
  destruct (Float64.to_uint32 (Float64.mul rate Float64.three_quarters)) as [requested|];
    [|reflexivity].
  destruct (bladerf_set_bandwidth d1 requested) as [[status actual] d2].
  destruct (status =? 0); reflexivity.
Qed.

Lemma set_bandwidth_zero_applies_three_quarters_of_rate_witness :
  set_bandwidth Float64.zero 0 (mk_sim 2000000 0 BLADERF_REV_1) =
    (Value (Float64.of_int 1500000), mk_sim 2000000 1500000 BLADERF_REV_1,
     [GetSampleRate; SetBandwidth 1500000; GetBandwidth]) /\
  bandwidth_requests
    (snd (set_bandwidth Float64.zero 0 (mk_sim 2000000 0 BLADERF_REV_1))) = [1500000].
Proof.
  assert (Hr : common_get_sample_rate (mk_sim 2000000 0 BLADERF_REV_1)
               = (Value (Float64.of_int 2000000), mk_sim 2000000 0 BLADERF_REV_1))
    by reflexivity.
  destruct (set_bandwidth_zero_applies_three_quarters_of_rate
              (mk_sim 2000000 0 BLADERF_REV_1) (mk_sim 2000000 0 BLADERF_REV_1)
              0 (Float64.of_int 2000000) Hr) as (H1 & _ & H3).
  split; [exact H1|exact H3].
Defined.

(** For a sample rate that is an integer below [2^32], as the board
    reports it, the product is exact and the hardware is asked for
    three quarters of the rate, rounded down to a whole number of Hz. *)
Lemma set_bandwidth_zero_of_integral_rate {device : Type} `{Hardware device}
  (d d1 : device) (chan : Z) (r : Z) :
  common_get_sample_rate d = (Value (Float64.of_int r), d1) ->
  0 <= r < 2 ^ 32 ->
  bandwidth_requests (snd (set_bandwidth Float64.zero chan d)) = [3 * r / 4].
Proof.
  intros Hrate Hr.
  rewrite (set_bandwidth_zero_requests d d1 chan _ Hrate).
  unfold requested_for. now rewrite auto_bandwidth_of_integral_rate.
Qed.

(** On the simulated board: the automatic bandwidth for 2 MHz is 1.5 MHz,
    read back as such; a product with a fractional part reaches the driver
    without it. *)
Example set_bandwidth_auto_2MHz :
  set_bandwidth Float64.zero 0 (mk_sim 2000000 0 BLADERF_REV_1) =
    (Value (Float64.of_int 1500000), mk_sim 2000000 1500000 BLADERF_REV_1,
     [GetSampleRate; SetBandwidth 1500000; GetBandwidth]).
Proof. vm_compute. reflexivity. Qed.

Example set_bandwidth_auto_fraction :
  Float64.mul (Float64.of_int 1000001) Float64.three_quarters
    = Float64.dyadic 3000003 (-2) /\
  bandwidth_requests
    (snd (set_bandwidth Float64.zero 0 (mk_sim 1000001 0 BLADERF_REV_1))) = [750000].
Proof. split; vm_compute; reflexivity. Qed.

(** C9: [get_freq_corr] returns 0 for every channel, also after any
    [set_freq_corr] calls; [set_freq_corr] applies no correction: it makes
    no hardware call, leaves the device as it was and returns what the
    getter returns, 0, for every ppm argument. *)
Theorem freq_corr_is_always_zero {device : Type} `{Hardware device}
  (d : device) (calls : list (spec_float * Z)) (ppm : spec_float) (chan chan' : Z) :
  get_freq_corr chan d = (Value Float64.zero, d, []) /\
  set_freq_corr ppm chan d = get_freq_corr (BLADERF_CHANNEL_RX chan) d /\
  set_freq_corr ppm chan d = (Value Float64.zero, d, []) /\
  (_ <- set_freq_corr_all calls ;; get_freq_corr chan') d = (Value Float64.zero, d, []).
Proof.
  repeat split.
  assert (Hall : set_freq_corr_all calls d = (Value tt, d, [])).
  { induction calls as [|[p ch] rest IH]; [reflexivity|].
    cbn [set_freq_corr_all]. unfold bind. cbn. rewrite IH. reflexivity. }
  unfold bind. rewrite Hall. reflexivity.
Qed.

(** C10: [get_antenna] returns the constant "RX0" for every channel and
    every board revision, also the one on which [get_antennas] lists both
    "RX0" and "RX1"; so [set_antenna] returns "RX0" for every antenna
    argument. *)
Theorem antenna_is_always_RX0 {device : Type} `{Hardware device}
  (d : device) (antenna : string) (chan : Z) :
  get_antenna chan d = (Value "RX0"%string, d, []) /\
  set_antenna antenna chan d = get_antenna (BLADERF_CHANNEL_RX chan) d /\
  set_antenna antenna chan d = (Value "RX0"%string, d, []) /\
  get_antennas chan d =
    (Value (if board_eqb BLADERF_REV_2 (get_board_type d)
            then ["RX0"%string; "RX1"%string] else ["RX0"%string]), d, []).
Proof.
  repeat split.
Qed.

Example antenna_on_dual_antenna_board :
  let d := mk_sim 2000000 0 BLADERF_REV_2 in
  fst (fst (get_antennas 0 d)) = Value ["RX0"%string; "RX1"%string] /\
  fst (fst (get_antenna 1 d)) = Value "RX0"%string /\
  fst (fst (set_antenna "RX1" 1 d)) = Value "RX0"%string.
Proof. repeat split. Qed.

(** * Further properties of the work cycle *)

(** What an invocation that returns has done, read off [work]. *)
Lemma work_returned_inv (c : cycle) (st st' : adapter) (ret : Z) (out : list gr_complex) :
  work c st = (Returned ret out, st') ->
  exists st1,
    in_contract (noutput_items c) = true /\
    ensure_capacity c st = Grown st1 /\
    _conv_buf st' = snd (bladerf_sync_rx c (_conv_buf st1) (noutput_items c) (meta_ptr st1)) /\
    _conv_buf_size st' = _conv_buf_size st1 /\
    (ret = WORK_DONE /\ out = [] /\ rx_ret c <> 0 /\
       MAX_CONSECUTIVE_FAILURES <= _consecutive_failures st'
     \/ ret = noutput_items c /\ out = converted st' (noutput_items c) /\
        (rx_ret c = 0 \/ _consecutive_failures st' < MAX_CONSECUTIVE_FAILURES)).
Proof.
  unfold work.
  destruct (in_contract (noutput_items c)); cbn [negb]; [|discriminate].
  destruct (ensure_capacity c st) as [st1|st1]; [|discriminate].
  destruct (capacity st1 <? noutput_items c); [discriminate|].
  unfold bladerf_sync_rx, count_failure. cbn [snd].
  destruct st1 as [b sz k um].
  cbn [set_conv_buf _conv_buf _conv_buf_size _consecutive_failures _use_metadata
       set_consecutive_failures].
  destruct (Z.eqb_spec (rx_ret c) 0) as [R|R]; cbn [negb].
  - intros H. injection H as <- <- <-.
    eexists. repeat split. right. repeat split. now left.
  - destruct (Z.leb_spec MAX_CONSECUTIVE_FAILURES (wrap32 (k + 1))) as [Hge|Hlt];
      intros H; injection H as <- <- <-; eexists; repeat split.
    + left. repeat split; assumption.
    + right. repeat split. now right.
Qed.

Lemma int16_range (z : Z) : is_int16 (int16 z).
Proof.
  unfold is_int16, int16.
  pose proof (Z.mod_pos_bound (z + 32768) 65536 ltac:(lia)). lia.
Qed.

Lemma realloc_int16 (old : list Z) (count : nat) (g : nat -> Z) :
  Forall is_int16 old -> Forall is_int16 (realloc old count g).
Proof.
  intros H. unfold realloc. apply Forall_app. split.
  - rewrite <- (firstn_skipn count old) in H. apply Forall_app in H. apply H.
  - apply Forall_forall. intros x Hx. apply in_map_iff in Hx as (i & <- & _).
    apply int16_range.
Qed.

Lemma ensure_capacity_int16 (c : cycle) (st st1 : adapter) :
  Forall is_int16 (_conv_buf st) -> ensure_capacity c st = Grown st1 ->
  Forall is_int16 (_conv_buf st1).
Proof.
  intros H. unfold ensure_capacity.
  destruct (_conv_buf_size st <? noutput_items c).
  - destruct (realloc_fails c); [discriminate|].
    intros E. injection E as <-. cbn [_conv_buf set_conv_buf set_conv_buf_size].
    now apply realloc_int16.
  - intros E. injection E as <-. exact H.
Qed.

Lemma bladerf_sync_rx_int16 (c : cycle) (buf : list Z) (n : Z) m :
  Forall is_int16 buf -> Forall is_int16 (snd (bladerf_sync_rx c buf n m)).
Proof.
  intros H. unfold bladerf_sync_rx. cbn [snd]. apply Forall_app. split.
  - apply Forall_forall. intros x Hx. apply in_map_iff in Hx as (i & <- & _).
    apply int16_range.
  - set (k := if rx_ret c =? 0 then _ else _).
    rewrite <- (firstn_skipn k buf) in H. apply Forall_app in H. apply H.
Qed.


(** The contents of the block after the growth step: what it held before,
    then, in newly obtained memory, indeterminate values. *)
Lemma ensure_capacity_contents (c : cycle) (st st1 : adapter) (j : nat) :
  consistent st -> ensure_capacity c st = Grown st1 ->
  (j < length (_conv_buf st1))%nat ->
  nth j (_conv_buf st1) 0
  = if (j <? length (_conv_buf st))%nat then nth j (_conv_buf st) 0
    else int16 (fresh c j).
Proof.
  intros Hc Hg Hj. unfold ensure_capacity in Hg.
  destruct (Z.ltb_spec (_conv_buf_size st) (noutput_items c)) as [Hlt|Hge].
  - destruct (realloc_fails c); [discriminate|].
    injection Hg as <-.
    cbn [_conv_buf _conv_buf_size set_conv_buf set_conv_buf_size] in *.
    rewrite realloc_length in Hj. unfold realloc.
    unfold consistent in Hc.
    rewrite firstn_all2 by lia.
    destruct (Nat.ltb_spec j (length (_conv_buf st))) as [Hin|Hout].
    + now rewrite app_nth1.
    + rewrite app_nth2 by exact Hout.
      rewrite (nth_indep _ 0 (int16 (fresh c 0)))
        by (rewrite length_map, length_seq; lia).
      rewrite (map_nth (fun i => int16 (fresh c i))).
      rewrite seq_nth by lia. f_equal. f_equal. lia.
  - injection Hg as <-.
    replace (j <? length (_conv_buf st))%nat with true
      by (symmetry; apply Nat.ltb_lt; exact Hj).
    reflexivity.
Qed.

(** The contents of the block after the transfer: the values the driver
    stored, then what the block held before. *)
Lemma bladerf_sync_rx_contents (c : cycle) (buf : list Z) (n : Z) m (j : nat) :
  2 * n <= Z.of_nat (length buf) ->
  nth j (snd (bladerf_sync_rx c buf n m)) 0
  = if (j <? (if (rx_ret c =? 0)%Z then Z.to_nat (2 * n)
              else Nat.min (rx_stored c) (Z.to_nat (2 * n))))%nat
    then int16 (rx_samples c j) else nth j buf 0.
Proof.
  intros Hlen. unfold bladerf_sync_rx. cbn [snd].
  set (k := if rx_ret c =? 0 then _ else _).
  assert (Hk : (k <= length buf)%nat) by (subst k; destruct (rx_ret c =? 0); lia).
  destruct (Nat.ltb_spec j k) as [Hin|Hout].
  - rewrite app_nth1 by (rewrite length_map, length_seq; exact Hin).
    rewrite (nth_indep _ 0 (int16 (rx_samples c 0)))
      by (rewrite length_map, length_seq; exact Hin).
    rewrite (map_nth (fun i => int16 (rx_samples c i))).
    now rewrite seq_nth.
  - rewrite app_nth2 by (rewrite length_map, length_seq; exact Hout).
    rewrite length_map, length_seq.
    rewrite <- (firstn_skipn k buf) at 2.
    rewrite app_nth2 by (rewrite length_firstn; lia).
    rewrite length_firstn. f_equal. lia.
Qed.

(** C5: a work cycle with requested count [n] whose transfer fails without
    the failure threshold being reached still returns [n] and converts the
    [2n] interleaved 16-bit integers then in the scratch buffer into [n]
    complex float samples, each integer divided by 2048.0.  What is in the
    buffer then: at the positions the driver reached before failing, the
    values it stored; at the others, the values the buffer held before the
    cycle (stale data) or, in memory obtained in this cycle, indeterminate
    values. *)
Theorem failed_transfer_still_converts (c : cycle) (st : adapter) :
  consistent st -> benign c -> rx_ret c <> 0 ->
  wrap32 (_consecutive_failures st + 1) < MAX_CONSECUTIVE_FAILURES ->
  let in_buffer := fun j : nat =>
    if (j <? Nat.min (rx_stored c) (Z.to_nat (2 * noutput_items c)))%nat
    then int16 (rx_samples c j)
    else if (j <? length (_conv_buf st))%nat then nth j (_conv_buf st) 0
    else int16 (fresh c j) in
  exists (out : list gr_complex) (st' : adapter),
    work c st = (Returned (noutput_items c) out, st') /\
    noutput_items c <> WORK_DONE /\
    Z.of_nat (length out) = noutput_items c /\
    (forall j, (j < Z.to_nat (2 * noutput_items c))%nat ->
       nth j (_conv_buf st') 0 = in_buffer j) /\
    (forall i, (i < length out)%nat ->
       nth i out (Float32.zero, Float32.zero) =
         (Float32.div (Float32.of_int (in_buffer (2 * i)%nat)) scaling,
          Float32.div (Float32.of_int (in_buffer (2 * i + 1)%nat)) scaling)).
Proof.
  intros Hc Hb Hret Hbelow in_buffer.
  destruct (work_completes c st Hc (benign_completes c st Hb))
    as (st' & Hc' & Hsz & _ & Hcnt & Hw).
  pose proof Hret as Hret'.
  apply Z.eqb_neq in Hret. rewrite Hret in Hcnt, Hw. cbn [negb andb] in Hw.
  rewrite <- Hcnt in Hbelow.
  replace (MAX_CONSECUTIVE_FAILURES <=? _consecutive_failures st') with false in Hw
    by (symmetry; apply Z.leb_gt; exact Hbelow).
  destruct (work_returned_inv c st st' _ _ Hw) as (st1 & _ & Hg & Hbuf & Hsz1 & _).
  destruct Hb as [Hin _].
  pose proof (in_contract_not_done _ Hin) as Hnd.
  unfold in_contract in Hin. apply andb_true_iff in Hin as [Hn0 _]. apply Z.leb_le in Hn0.
  assert (Hlen : 2 * noutput_items c <= Z.of_nat (length (_conv_buf st')))
    by (unfold consistent in Hc'; lia).
  assert (Hlen1 : 2 * noutput_items c <= Z.of_nat (length (_conv_buf st1))).
  { pose proof (capacity_at_transfer c st st1 Hc Hg) as Hcap.
    unfold capacity in Hcap.
    pose proof (Z.mul_div_le (Z.of_nat (length (_conv_buf st1))) 2 ltac:(lia)). lia. }
  assert (Hcontents : forall j, (j < Z.to_nat (2 * noutput_items c))%nat ->
            nth j (_conv_buf st') 0 = in_buffer j).
  { intros j Hj. rewrite Hbuf, bladerf_sync_rx_contents by exact Hlen1.
    rewrite Hret. subst in_buffer. cbv beta.
    destruct (j <? Nat.min (rx_stored c) (Z.to_nat (2 * noutput_items c)))%nat;
      [reflexivity|].
    apply (ensure_capacity_contents c st st1 j Hc Hg). lia. }
  destruct (converted_spec st' (noutput_items c) Hn0 Hlen) as [Hl Hnth].
  exists (converted st' (noutput_items c)), st'.
  repeat split; try assumption.
  intros i Hi. rewrite (Hnth i Hi).
  rewrite !Hcontents by lia. reflexivity.
Qed.

Lemma failed_transfer_still_converts_witness :
  exists (out : list gr_complex) (st' : adapter),
    work (rx_fail 1) (snd (work (rx_ok 2 unit_samples) fresh_adapter))
      = (Returned 1 out, st') /\
    Z.of_nat (length out) = 1 /\
    nth 0 out (Float32.zero, Float32.zero) = (Float32.one, Float32.minus_one).
Proof.
  assert (Hc : consistent (snd (work (rx_ok 2 unit_samples) fresh_adapter)))
    by (vm_compute; reflexivity).
  destruct (failed_transfer_still_converts (rx_fail 1)
              (snd (work (rx_ok 2 unit_samples) fresh_adapter))
              Hc (benign_rx_fail 1 ltac:(lia))
              ltac:(discriminate) ltac:(reflexivity))
    as (out & st' & Hw & _ & Hl & _ & Hout).
  exists out, st'. split; [exact Hw|]. split; [exact Hl|].
  rewrite (Hout 0%nat) by (apply Nat2Z.inj_lt; rewrite Hl; reflexivity).
  vm_compute. reflexivity.
Defined.

(** X1: the value [work] returns is the number of complex samples it has
    stored to the output: [WORK_DONE] goes with nothing stored (and only
    with a failed transfer and the counter at the threshold or above), any
    other return is the requested count with exactly that many samples. *)
Theorem work_returns_number_of_samples
  (c : cycle) (st st' : adapter) (ret : Z) (out : list gr_complex) :
  consistent st -> work c st = (Returned ret out, st') ->
  (ret = WORK_DONE /\ out = [] /\ rx_ret c <> 0 /\
     MAX_CONSECUTIVE_FAILURES <= _consecutive_failures st')
  \/ (ret = noutput_items c /\ 0 <= ret /\ Z.of_nat (length out) = ret).
Proof.
  intros Hc Hw.
  destruct (work_returned_inv c st st' ret out Hw)
    as (st1 & Hin & _ & _ & _ & [(Hr & Ho & R & K)|(Hr & Ho & _)]).
  - left. repeat split; assumption.
  - right. subst ret out.
    destruct (work_returned_consistent c st st' _ _ Hc Hw) as [Hc' Hsz].
    unfold in_contract in Hin. apply andb_true_iff in Hin as [Hn0 _].
    apply Z.leb_le in Hn0.
    assert (Hlen : 2 * noutput_items c <= Z.of_nat (length (_conv_buf st')))
      by (unfold consistent in Hc'; lia).
    destruct (converted_spec st' (noutput_items c) Hn0 Hlen) as [Hl _].
    repeat split; assumption.
Qed.

Lemma work_returns_number_of_samples_witness :
  exists (out : list gr_complex) (st' : adapter),
    work (rx_ok 2 unit_samples) fresh_adapter = (Returned 2 out, st') /\
    Z.of_nat (length out) = 2.
Proof.
  destruct (work (rx_ok 2 unit_samples) fresh_adapter) as [r st'] eqn:E.
  assert (Hr : exists out, r = Returned 2 out).
  { vm_compute in E. injection E as <- _. eexists. reflexivity. }
  destruct Hr as [out ->].
  destruct (work_returns_number_of_samples _ _ _ _ _ consistent_fresh_adapter E)
    as [(Hd & _)|(_ & _ & Hl)].
  - discriminate Hd.
  - exists out, st'. split; [reflexivity|exact Hl].
Defined.

(** Multiplying a converted sample by 2048 gives the raw sample back: the
    conversion loses nothing. *)
Lemma raw_of_converted (x : Z) :
  is_int16 x -> raw_of_float (convert_16i_32f scaling x) = Some x.
Proof.
  intros Hx.
  assert (Hall : all_from (Z.to_nat 65536) (-32768)
            (fun y => match raw_of_float (convert_16i_32f scaling y) with
                      | Some z => z =? y
                      | None => false
                      end) = true)
    by (vm_compute; reflexivity).
  pose proof (all_from_spec _ _ _ Hall x) as H.
  unfold is_int16 in Hx. rewrite Z2Nat.id in H by lia. specialize (H ltac:(lia)).
  destruct (raw_of_float (convert_16i_32f scaling x)) as [z|]; [|discriminate].
  apply Z.eqb_eq in H. now subst.
Qed.

(** X2: the scratch block only ever holds [int16_t] values, and every
    float an invocation stores to the output is exact: multiplied by 2048 it
    is the raw value at its place in the block, so no sample is rounded,
    infinite or NaN. *)
Theorem emitted_samples_are_exact
  (c : cycle) (st st' : adapter) (ret : Z) (out : list gr_complex) :
  consistent st -> Forall is_int16 (_conv_buf st) ->
  work c st = (Returned ret out, st') ->
  Forall is_int16 (_conv_buf st') /\
  forall i, (i < length out)%nat ->
    raw_of_float (fst (nth i out (Float32.zero, Float32.zero)))
      = Some (nth (2 * i) (_conv_buf st') 0) /\
    raw_of_float (snd (nth i out (Float32.zero, Float32.zero)))
      = Some (nth (2 * i + 1) (_conv_buf st') 0).
Proof.
  intros Hc Hb Hw.
  destruct (work_returned_inv c st st' ret out Hw)
    as (st1 & Hin & Hg & Hbuf & _ & Hcase).
  assert (Hb' : Forall is_int16 (_conv_buf st')).
  { rewrite Hbuf. apply bladerf_sync_rx_int16.
    eapply ensure_capacity_int16; eassumption. }
  split; [exact Hb'|].
  destruct Hcase as [(_ & -> & _)|(-> & -> & _)]; [intros i Hi; simpl in Hi; lia|].
  destruct (work_returned_consistent c st st' _ _ Hc Hw) as [Hc' Hsz].
  unfold in_contract in Hin. apply andb_true_iff in Hin as [Hn0 _].
  apply Z.leb_le in Hn0.
  assert (Hlen : 2 * noutput_items c <= Z.of_nat (length (_conv_buf st')))
    by (unfold consistent in Hc'; lia).
  destruct (converted_spec st' (noutput_items c) Hn0 Hlen) as [Hl Hnth].
  intros i Hi. rewrite (Hnth i Hi). cbn [fst snd].
  rewrite Forall_forall in Hb'.
  split; apply raw_of_converted; apply Hb'; apply nth_In; lia.
Qed.

Lemma int16_fresh_adapter : Forall is_int16 (_conv_buf fresh_adapter).
Proof. repeat constructor; unfold is_int16; lia. Qed.

Lemma emitted_samples_are_exact_witness :
  raw_of_float
    (fst (nth 0 (converted (snd (work (rx_ok 2 unit_samples) fresh_adapter)) 2)
            (Float32.zero, Float32.zero))) = Some 2048.
Proof.
  assert (E : work (rx_ok 2 unit_samples) fresh_adapter =
              (Returned 2 (converted (snd (work (rx_ok 2 unit_samples) fresh_adapter)) 2),
               snd (work (rx_ok 2 unit_samples) fresh_adapter)))
    by (vm_compute; reflexivity).
  destruct (emitted_samples_are_exact _ _ _ _ _
              consistent_fresh_adapter int16_fresh_adapter E) as [_ H].
  destruct (H 0%nat ltac:(vm_compute; lia)) as [H0 _].
  rewrite H0. vm_compute. reflexivity.
Defined.



(** [converted] only looks at the block. *)
Lemma converted_same_buf (st1 st2 : adapter) (n : Z) :
  _conv_buf st1 = _conv_buf st2 -> converted st1 n = converted st2 n.
Proof. intros H. unfold converted. now rewrite H. Qed.

(** X4: a failed transfer that stored nothing, right after a successful
    cycle with the same request, emits that cycle's samples once more: the
    caller gets the previous block again, with the full count. *)
Theorem failed_cycle_repeats_previous_output (s f : cycle) (st : adapter) :
  consistent st -> benign s -> benign f ->
  rx_ret s = 0 -> rx_ret f <> 0 -> rx_stored f = 0%nat ->
  noutput_items f = noutput_items s ->
  exists out,
    fst (run [s; f] st) = [Returned (noutput_items s) out; Returned (noutput_items s) out].
Proof.
  intros Hc Hs Hf Rs Rf Hst Hn.
  destruct (work_success s st Hc (benign_completes s st Hs) Rs) as (st1 & Hw1 & Hc1 & K1).
  destruct (work_returned_consistent s st st1 _ _ Hc Hw1) as [_ Hsz1].
  destruct (work_failure f st1 Hc1 (benign_completes f st1 Hf) Rf) as (st2 & Hc2 & K2 & Hw2).
  rewrite K1 in K2. change (wrap32 (0 + 1)) with 1 in K2.
  rewrite K2 in Hw2. cbn [Z.leb Z.compare MAX_CONSECUTIVE_FAILURES Pos.compare
    Pos.compare_cont] in Hw2.
  assert (Hsame : _conv_buf st2 = _conv_buf st1).
  { replace st2 with (snd (work f st1)) by now rewrite Hw2.
    apply failed_transfer_converts_stale_data; try assumption. lia. }
  exists (converted st1 (noutput_items s)).
  cbn [run]. rewrite Hw1, Hw2. cbn [fst].
  rewrite Hn, (converted_same_buf st2 st1 _ Hsame). reflexivity.
Qed.

Lemma failed_cycle_repeats_previous_output_witness :
  exists out,
    fst (run [rx_ok 2 unit_samples; rx_fail 2] fresh_adapter)
    = [Returned 2 out; Returned 2 out].
Proof.
  exact (failed_cycle_repeats_previous_output (rx_ok 2 unit_samples) (rx_fail 2)
           fresh_adapter consistent_fresh_adapter
           (benign_rx_ok 2 _ ltac:(lia)) (benign_rx_fail 2 ltac:(lia))
           eq_refl ltac:(discriminate) eq_refl eq_refl).
Defined.

(** X5: when realloc fails, [work] throws before any transfer, with the
    block and the failure counter untouched but the recorded size already
    raised to the request.  A later invocation asking for no more than that
    does not try to allocate again, although its block is too small for the
    transfer. *)
Theorem realloc_failure_is_not_retried (c c' : cycle) (st : adapter) :
  consistent st ->
  in_contract (noutput_items c) = true ->
  _conv_buf_size st < noutput_items c -> realloc_fails c = true ->
  in_contract (noutput_items c') = true ->
  _conv_buf_size st < noutput_items c' <= noutput_items c ->
  fst (work c st) = Threw "workFailed to realloc _conv_buf" /\
  _conv_buf (snd (work c st)) = _conv_buf st /\
  _consecutive_failures (snd (work c st)) = _consecutive_failures st /\
  _conv_buf_size (snd (work c st)) = noutput_items c /\
  ensure_capacity c' (snd (work c st)) = Grown (snd (work c st)) /\
  capacity (snd (work c st)) < noutput_items c' /\
  fst (work c' (snd (work c st))) = Undefined.
Proof.
  intros Hc Hin Hlt Hre Hin' [Hlo Hhi].
  assert (Hw : work c st =
               (Threw "workFailed to realloc _conv_buf", set_conv_buf_size st (noutput_items c))).
  { unfold work, ensure_capacity. rewrite Hin. cbn [negb].
    replace (_conv_buf_size st <? noutput_items c) with true
      by (symmetry; apply Z.ltb_lt; exact Hlt).
    now rewrite Hre. }
  rewrite Hw. cbn [fst snd].
  set (st1 := set_conv_buf_size st (noutput_items c)).
  assert (Hcap : capacity st1 = _conv_buf_size st)
    by (rewrite <- (capacity_consistent st Hc); reflexivity).
  assert (Hg : ensure_capacity c' st1 = Grown st1).
  { unfold ensure_capacity. cbn [_conv_buf_size st1 set_conv_buf_size].
    replace (noutput_items c <? noutput_items c') with false
      by (symmetry; apply Z.ltb_ge; exact Hhi).
    reflexivity. }
  repeat split; try reflexivity; try assumption.
  - rewrite Hcap. exact Hlo.
  - unfold work. rewrite Hin'. cbn [negb]. rewrite Hg.
    replace (capacity st1 <? noutput_items c') with true
      by (symmetry; apply Z.ltb_lt; rewrite Hcap; exact Hlo).
    reflexivity.
Qed.

Lemma realloc_failure_is_not_retried_witness :
  fst (work (no_memory 8) fresh_adapter) = Threw "workFailed to realloc _conv_buf" /\
  fst (work (rx_ok 8 unit_samples) (snd (work (no_memory 8) fresh_adapter))) = Undefined.
Proof.
  pose proof (realloc_failure_is_not_retried (no_memory 8) (rx_ok 8 unit_samples)
                fresh_adapter consistent_fresh_adapter eq_refl
                ltac:(vm_compute; reflexivity) eq_refl eq_refl
                ltac:(vm_compute; split; [reflexivity|discriminate]))
    as (H1 & _ & _ & _ & _ & _ & H2).
  split; [exact H1|exact H2].
Defined.

Lemma work_completes_returned (c : cycle) (st : adapter) :
  consistent st -> completes c st ->
  exists ret out st1,
    work c st = (Returned ret out, st1) /\ consistent st1 /\
    _conv_buf_size st1 = Z.max (_conv_buf_size st) (noutput_items c).
Proof.
  intros Hc Hb.
  destruct (work_completes c st Hc Hb) as (st1 & Hc1 & Hsz & _ & _ & Hw).
  destruct (negb (rx_ret c =? 0) &&
            (MAX_CONSECUTIVE_FAILURES <=? _consecutive_failures st1)) in Hw;
    eexists; eexists; exists st1; (split; [exact Hw|split; assumption]).
Qed.

(** A run of benign cycles from a consistent adapter: every invocation
    returns, and the run splits at any point. *)
Lemma run_benign (cs : list cycle) :
  forall st, consistent st -> Forall benign cs ->
  consistent (snd (run cs st)) /\
  length (fst (run cs st)) = length cs /\
  _conv_buf_size (snd (run cs st))
    = fold_left Z.max (map noutput_items cs) (_conv_buf_size st) /\
  forall cs', run (cs ++ cs') st
    = (fst (run cs st) ++ fst (run cs' (snd (run cs st))),
       snd (run cs' (snd (run cs st)))).
Proof.
  induction cs as [|c cs IH]; intros st Hc Hb.
  - repeat split; try assumption. intros cs'. cbn. now destruct (run cs' st).
  - inversion Hb as [|? ? Hbc Hbs]; subst.
    destruct (work_completes_returned c st Hc (benign_completes c st Hbc))
      as (ret & out & st1 & Hw & Hc1 & Hsz).
    destruct (IH st1 Hc1 Hbs) as (IHc & IHl & IHs & IHapp).
    rewrite (run_cons_returned c cs st st1 ret out Hw). cbn [fst snd].
    repeat split.
    + exact IHc.
    + cbn [length]. now rewrite IHl.
    + cbn [map fold_left]. rewrite IHs, Hsz. reflexivity.
    + intros cs'. rewrite <- app_comm_cons.
      rewrite (run_cons_returned c (cs ++ cs') st st1 ret out Hw).
      rewrite IHapp. reflexivity.
Qed.

(** X6: over any run of cycles whose allocations succeed, the recorded
    size of the scratch block, and its capacity, is the largest of the
    initial size and the requests seen so far: the block grows to the
    request, never beyond, and every invocation returns. *)
Theorem block_size_is_largest_request (cs : list cycle) (st : adapter) :
  consistent st -> Forall benign cs ->
  length (fst (run cs st)) = length cs /\
  _conv_buf_size (snd (run cs st))
    = fold_left Z.max (map noutput_items cs) (_conv_buf_size st) /\
  capacity (snd (run cs st))
    = fold_left Z.max (map noutput_items cs) (_conv_buf_size st).
Proof.
  intros Hc Hb. destruct (run_benign cs st Hc Hb) as (Hc' & Hl & Hs & _).
  repeat split; try assumption.
  now rewrite (capacity_consistent _ Hc').
Qed.

Lemma block_size_is_largest_request_witness :
  capacity (snd (run [rx_ok 5 unit_samples; rx_fail 3; rx_ok 7 unit_samples; rx_ok 1 unit_samples]
                   fresh_adapter)) = 7.
Proof.
  refine (proj2 (proj2 (block_size_is_largest_request
            [rx_ok 5 unit_samples; rx_fail 3; rx_ok 7 unit_samples; rx_ok 1 unit_samples]
            fresh_adapter consistent_fresh_adapter _))).
  repeat constructor.
Defined.

(** Failing cycles in a row, counted from a known counter. *)
Lemma run_failures (fs : list cycle) :
  forall st k, consistent st -> _consecutive_failures st = k -> 0 <= k ->
  k + Z.of_nat (length fs) < 2 ^ 32 ->
  Forall benign fs -> Forall (fun f => rx_ret f <> 0) fs ->
  _consecutive_failures (snd (run fs st)) = k + Z.of_nat (length fs) /\
  forall i f, nth_error fs i = Some f ->
    nth_error (map returned (fst (run fs st))) i
    = Some (Some (if MAX_CONSECUTIVE_FAILURES <=? k + Z.of_nat i + 1
                  then WORK_DONE else noutput_items f)).
Proof.
  induction fs as [|f0 fs IH]; intros st k Hc Hk Hk0 Hbound Hb Hf.
  - split; [cbn; lia|]. intros [|i] f H; discriminate.
  - inversion Hb as [|? ? Hb0 Hbs]; subst.
    inversion Hf as [|? ? Hf0 Hfs]; subst.
    cbn [length] in Hbound. rewrite Nat2Z.inj_succ in Hbound.
    destruct (run_failure f0 fs st _ Hc (benign_completes f0 st Hb0) Hf0 eq_refl Hk0)
      as (st1 & Hc1 & K1 & _ & Hrun & Hst); [lia|].
    destruct (IH st1 _ Hc1 K1) as [IHk IHn]; try assumption; try lia.
    split.
    + rewrite Hst, IHk. cbn [length]. rewrite Nat2Z.inj_succ. lia.
    + intros [|i] f H; rewrite Hrun.
      * injection H as <-. cbn [nth_error Z.of_nat]. now rewrite Z.add_0_r.
      * cbn [nth_error] in *. rewrite (IHn i f H).
        match goal with
        | |- context [?a + 1 + Z.of_nat i + 1] =>
            replace (a + 1 + Z.of_nat i + 1) with (a + Z.of_nat (S i) + 1)
              by (rewrite Nat2Z.inj_succ; lia)
        end.
        reflexivity.
Qed.

(** X7: the failure counter is the number of failed transfers since the
    last successful one, whatever came before it; of those failures the
    first two return their sample counts and every later one [WORK_DONE]. *)
Theorem failure_count_is_failures_since_success
  (pre fs : list cycle) (s : cycle) (st : adapter) :
  consistent st -> Forall benign pre -> benign s -> rx_ret s = 0 ->
  Forall benign fs -> Forall (fun f => rx_ret f <> 0) fs ->
  Z.of_nat (length fs) < 2 ^ 32 ->
  _consecutive_failures (snd (run (pre ++ s :: fs) st)) = Z.of_nat (length fs) /\
  forall i f, nth_error fs i = Some f ->
    nth_error (map returned (fst (run (pre ++ s :: fs) st))) (length pre + 1 + i)
    = Some (Some (if (i <? 2)%nat then noutput_items f else WORK_DONE)).
Proof.
  intros Hc Hpre Hs Rs Hfs Hff Hlen.
  destruct (run_benign pre st Hc Hpre) as (Hc1 & Hl1 & _ & Happ).
  rewrite (Happ (s :: fs)). cbn [fst snd].
  set (st1 := snd (run pre st)) in *.
  destruct (run_success s fs st1 Hc1 (benign_completes s st1 Hs) Rs)
    as (st2 & Hc2 & K2 & _ & _ & Hrun & Hst).
  destruct (run_failures fs st2 0 Hc2 K2 ltac:(lia) ltac:(lia) Hfs Hff) as [Hk Hn].
  split; [rewrite Hst, Hk; lia|].
  intros i f H.
  rewrite map_app, nth_error_app2 by (rewrite length_map, Hl1; lia).
  rewrite length_map, Hl1.
  replace (length pre + 1 + i - length pre)%nat with (S i) by lia.
  rewrite Hrun. cbn [nth_error]. rewrite (Hn i f H). do 2 f_equal.
  unfold MAX_CONSECUTIVE_FAILURES.
  destruct (Nat.ltb_spec i 2); destruct (Z.leb_spec 3 (0 + Z.of_nat i + 1));
    try reflexivity; lia.
Qed.

Lemma failure_count_is_failures_since_success_witness :
  _consecutive_failures
    (snd (run ([rx_fail 1; rx_fail 1] ++ rx_ok 1 unit_samples :: [rx_fail 2; rx_fail 2])
            fresh_adapter)) = 2.
Proof.
  refine (proj1 (failure_count_is_failures_since_success
            [rx_fail 1; rx_fail 1] [rx_fail 2; rx_fail 2] (rx_ok 1 unit_samples)
            fresh_adapter consistent_fresh_adapter _ _ eq_refl _ _ _)).
  - repeat constructor.
  - apply benign_rx_ok. lia.
  - repeat constructor.
  - repeat constructor; discriminate.
  - vm_compute. reflexivity.
Defined.

(** * Further properties of the accessors and the constructor *)

(** [(uint32_t) (double) v] is [v] for every 32-bit unsigned [v]. *)
Lemma to_uint32_of_int (v : Z) :
  0 <= v < 2 ^ 32 -> Float64.to_uint32 (Float64.of_int v) = Some v.
Proof.
  intros Hv. destruct v as [|p|p]; [reflexivity| |lia].
  pose proof (digits2_le p 32 ltac:(lia)) as Hd.
  assert (0 < Zpos (digits2_pos p)) by lia.
  unfold Float64.of_int, Float64.prec, Float64.emax, binary_normalize.
  rewrite binary_round_canonical by lia.
  unfold Float64.to_uint32, Float64.trunc.
  set (dg := Zpos (digits2_pos p)) in *.
  replace (0 <=? dg + 0 - 53) with false by (symmetry; apply Z.leb_gt; lia).
  rewrite Z.shiftr_div_pow2 by lia.
  rewrite mantissa53_value by (fold dg; lia). fold dg.
  replace (- (dg + 0 - 53)) with (53 - dg) by lia.
  rewrite Z.div_mul by (apply Z.pow_nonzero; lia).
  replace (0 <=? Zpos p) with true by (symmetry; apply Z.leb_le; lia).
  replace (Zpos p <? 2 ^ 32) with true by (symmetry; apply Z.ltb_lt; lia).
  reflexivity.
Qed.

Lemma of_int_is_not_zero (v : Z) :
  0 < v < 2 ^ 32 -> Float64.eqb (Float64.of_int v) Float64.zero = false.
Proof.
  intros Hv. destruct v as [|p|p]; try lia.
  pose proof (digits2_le p 32 ltac:(lia)) as Hd.
  assert (0 < Zpos (digits2_pos p)) by lia.
  unfold Float64.of_int, Float64.prec, Float64.emax, binary_normalize.
  rewrite binary_round_canonical by lia. reflexivity.
Qed.

(** A bandwidth that is not zero is applied as it is, without a look at the
    sample rate. *)
Lemma set_bandwidth_nonzero {device : Type} `{Hardware device}
  (b : spec_float) (chan : Z) (d : device) :
  Float64.eqb b Float64.zero = false ->
  set_bandwidth b chan d = apply_bandwidth b d.
Proof.
  intros Hb. unfold set_bandwidth. rewrite Hb.
  unfold bind at 1. unfold ret at 1.
  destruct (apply_bandwidth b d) as [[r d1] t]. reflexivity.
Qed.

(** X8: the bandwidth [get_bandwidth] reports can be handed back to
    [set_bandwidth] unchanged: for every nonzero 32-bit value of the
    hardware the report is that value as a double, and setting it asks the
    driver for exactly that value, without consulting the sample rate. *)
Theorem reported_bandwidth_round_trip {device : Type} `{Hardware device}
  (d d' : device) (chan chan' : Z) (v : Z) :
  bladerf_get_bandwidth d = (0, v) -> 0 < v < 2 ^ 32 ->
  get_bandwidth chan d = (Value (Float64.of_int v), d, [GetBandwidth]) /\
  set_bandwidth (Float64.of_int v) chan' d' = apply_bandwidth (Float64.of_int v) d' /\
  bandwidth_requests (snd (set_bandwidth (Float64.of_int v) chan' d')) = [v].
Proof.
  intros Hg Hv.
  split.
  { unfold get_bandwidth, bind, call_get_bandwidth. rewrite Hg. reflexivity. }
  pose proof (set_bandwidth_nonzero (Float64.of_int v) chan' d'
                (of_int_is_not_zero v Hv)) as Hs.
  split; [exact Hs|].
  rewrite Hs, apply_bandwidth_requests. unfold requested_for.
  now rewrite to_uint32_of_int by lia.
Qed.

Lemma reported_bandwidth_round_trip_witness :
  get_bandwidth 0 quiet_bench = (Value (Float64.of_int 1500000), quiet_bench, [GetBandwidth]) /\
  bandwidth_requests (snd (set_bandwidth (Float64.of_int 1500000) 0 quiet_bench)) = [1500000].
Proof.
  assert (Hg : bladerf_get_bandwidth quiet_bench = (0, 1500000)) by reflexivity.
  destruct (reported_bandwidth_round_trip quiet_bench quiet_bench 0 0 1500000
              Hg ltac:(lia)) as (H1 & _ & H2).
  split; [exact H1|exact H2].
Defined.

(** X9: when the driver accepts the bandwidth and the read-back succeeds,
    [set_bandwidth] returns the bandwidth the hardware reports afterwards,
    not the one it was given. *)
Theorem set_bandwidth_returns_read_back {device : Type} `{Hardware device}
  (b : spec_float) (chan : Z) (d d1 : device) (requested actual v : Z) :
  Float64.eqb b Float64.zero = false ->
  Float64.to_uint32 b = Some requested ->
  bladerf_set_bandwidth d requested = (0, actual, d1) ->
  bladerf_get_bandwidth d1 = (0, v) ->
  set_bandwidth b chan d
  = (Value (Float64.of_int v), d1, [SetBandwidth requested; GetBandwidth]).
Proof.
  intros Hb Hc Hs Hg. rewrite (set_bandwidth_nonzero b chan d Hb).
  unfold apply_bandwidth, bind, cast_uint32. rewrite Hc.
  unfold ret at 1. unfold call_set_bandwidth. rewrite Hs. cbn [Z.eqb negb].
  unfold get_bandwidth, bind, call_get_bandwidth. rewrite Hg. reflexivity.
Qed.

Lemma set_bandwidth_returns_read_back_witness :
  set_bandwidth (Float64.of_int 28000000) 0 quiet_bench
  = (Value (Float64.of_int 28000000), bench_with_bandwidth quiet_bench 28000000,
     [SetBandwidth 28000000; GetBandwidth]).
Proof.
  apply (set_bandwidth_returns_read_back (Float64.of_int 28000000) 0 quiet_bench
           (bench_with_bandwidth quiet_bench 28000000) 28000000 28000000 28000000);
    reflexivity.
Defined.


(** From the bandwidth it has resolved, [set_bandwidth] goes on with
    [apply_bandwidth]. *)
Lemma set_bandwidth_from_resolved {device : Type} `{Hardware device}
  (b b' : spec_float) (chan : Z) (d d0 : device) (pre : list hw_call) :
  resolves b d b' d0 pre ->
  set_bandwidth b chan d =
    (let '(r, d1, t) := apply_bandwidth b' d0 in (r, d1, pre ++ t)).
Proof.
  intros [Hb|rate d0' Hb Hrate].
  - rewrite (set_bandwidth_nonzero b chan d Hb).
    destruct (apply_bandwidth b d) as [[r d1] t]. reflexivity.
  - unfold set_bandwidth. rewrite Hb.
    unfold bind at 1. unfold bind at 1. unfold get_sample_rate. rewrite Hrate.
    unfold ret at 1.
    destruct (apply_bandwidth (Float64.mul rate Float64.three_quarters) d0')
      as [[r d1] t].
    reflexivity.
Qed.

(** X10: whenever [bladerf_set_bandwidth] returns a nonzero status, for a
    given bandwidth as for the automatic one of argument 0, [set_bandwidth]
    raises an error that carries the driver's message and does not read the
    bandwidth back. *)
Theorem set_bandwidth_driver_error {device : Type} `{Hardware device}
  (b b' : spec_float) (chan : Z) (d d0 d1 : device) (pre : list hw_call)
  (requested status actual : Z) :
  resolves b d b' d0 pre ->
  Float64.to_uint32 b' = Some requested ->
  bladerf_set_bandwidth d0 requested = (status, actual, d1) -> status <> 0 ->
  set_bandwidth b chan d
  = (Raised ("set_bandwidth could not set bandwidth: " ++ bladerf_strerror status),
     d1, pre ++ [SetBandwidth requested]).
Proof.
  intros Hres Hc Hs Hst.
  rewrite (set_bandwidth_from_resolved b b' chan d d0 pre Hres), apply_bandwidth_spec, Hc, Hs.
  apply Z.eqb_neq in Hst. rewrite Hst. reflexivity.
Qed.

Lemma set_bandwidth_driver_error_witness :
  set_bandwidth (Float64.of_int 28000000) 0 failing_bench
  = (Raised "set_bandwidth could not set bandwidth: error",
     bench_with_bandwidth failing_bench 28000000, [SetBandwidth 28000000]) /\
  set_bandwidth Float64.zero 0 failing_bench
  = (Raised "set_bandwidth could not set bandwidth: error",
     bench_with_bandwidth failing_bench 1500000, [GetSampleRate; SetBandwidth 1500000]).
Proof.
  split.
  - assert (Hs : bladerf_set_bandwidth failing_bench 28000000
                 = (-1, 28000000, bench_with_bandwidth failing_bench 28000000))
      by reflexivity.
    assert (Hc : Float64.to_uint32 (Float64.of_int 28000000) = Some 28000000)
      by reflexivity.
    assert (HRES : resolves (Float64.of_int 28000000) failing_bench
                     (Float64.of_int 28000000) failing_bench [])
      by (apply resolves_given; reflexivity).
    exact (set_bandwidth_driver_error (Float64.of_int 28000000) _ 0 failing_bench
             _ _ _ 28000000 (-1) 28000000
             HRES Hc Hs ltac:(discriminate)).
  - assert (Hr : common_get_sample_rate failing_bench
                 = (Value (Float64.of_int 2000000), failing_bench)) by reflexivity.
    assert (Hs : bladerf_set_bandwidth failing_bench 1500000
                 = (-1, 1500000, bench_with_bandwidth failing_bench 1500000))
      by reflexivity.
    assert (Hc : Float64.to_uint32
                   (Float64.mul (Float64.of_int 2000000) Float64.three_quarters)
                 = Some 1500000) by reflexivity.
    assert (HRESA : resolves Float64.zero failing_bench
                      (Float64.mul (Float64.of_int 2000000) Float64.three_quarters)
                      failing_bench [GetSampleRate])
      by (apply resolves_automatic; [reflexivity|exact Hr]).
    exact (set_bandwidth_driver_error Float64.zero _ 0 failing_bench
             _ _ _ 1500000 (-1) 1500000
             HRESA Hc Hs ltac:(discriminate)).
Defined.

(** X11: whenever the driver accepts the bandwidth but the read-back
    fails, for a given bandwidth as for the automatic one of argument 0,
    [set_bandwidth] raises the error of [get_bandwidth] although the
    hardware has already been given the new bandwidth. *)
Theorem set_bandwidth_read_back_error {device : Type} `{Hardware device}
  (b b' : spec_float) (chan : Z) (d d0 d1 : device) (pre : list hw_call)
  (requested actual status v : Z) :
  resolves b d b' d0 pre ->
  Float64.to_uint32 b' = Some requested ->
  bladerf_set_bandwidth d0 requested = (0, actual, d1) ->
  bladerf_get_bandwidth d1 = (status, v) -> status <> 0 ->
  set_bandwidth b chan d
  = (Raised ("get_bandwidth could not get bandwidth:" ++ bladerf_strerror status),
     d1, pre ++ [SetBandwidth requested; GetBandwidth]).
Proof.
  intros Hres Hc Hs Hg Hst.
  rewrite (set_bandwidth_from_resolved b b' chan d d0 pre Hres), apply_bandwidth_spec, Hc, Hs.
  cbn [Z.eqb]. rewrite Hg. cbn [fst snd].
  apply Z.eqb_neq in Hst. rewrite Hst. reflexivity.
Qed.

Lemma set_bandwidth_read_back_error_witness :
  set_bandwidth (Float64.of_int 28000000) 0 deaf_bench
  = (Raised "get_bandwidth could not get bandwidth:error",
     bench_with_bandwidth deaf_bench 28000000, [SetBandwidth 28000000; GetBandwidth]) /\
  set_bandwidth Float64.zero 0 deaf_bench
  = (Raised "get_bandwidth could not get bandwidth:error",
     bench_with_bandwidth deaf_bench 1500000,
     [GetSampleRate; SetBandwidth 1500000; GetBandwidth]).
Proof.
  split.
  - assert (Hs : bladerf_set_bandwidth deaf_bench 28000000
                 = (0, 28000000, bench_with_bandwidth deaf_bench 28000000))
      by reflexivity.
    assert (Hg : bladerf_get_bandwidth (bench_with_bandwidth deaf_bench 28000000)
                 = (-1, 28000000)) by reflexivity.
    assert (Hc : Float64.to_uint32 (Float64.of_int 28000000) = Some 28000000)
      by reflexivity.
    assert (HRES : resolves (Float64.of_int 28000000) deaf_bench
                     (Float64.of_int 28000000) deaf_bench [])
      by (apply resolves_given; reflexivity).
    exact (set_bandwidth_read_back_error (Float64.of_int 28000000) _ 0 deaf_bench
             _ _ _ 28000000 28000000 (-1) 28000000
             HRES Hc Hs Hg ltac:(discriminate)).
  - assert (Hr : common_get_sample_rate deaf_bench
                 = (Value (Float64.of_int 2000000), deaf_bench)) by reflexivity.
    assert (Hs : bladerf_set_bandwidth deaf_bench 1500000
                 = (0, 1500000, bench_with_bandwidth deaf_bench 1500000))
      by reflexivity.
    assert (Hg : bladerf_get_bandwidth (bench_with_bandwidth deaf_bench 1500000)
                 = (-1, 1500000)) by reflexivity.
    assert (Hc : Float64.to_uint32
                   (Float64.mul (Float64.of_int 2000000) Float64.three_quarters)
                 = Some 1500000) by reflexivity.
    assert (HRESA : resolves Float64.zero deaf_bench
                      (Float64.mul (Float64.of_int 2000000) Float64.three_quarters)
                      deaf_bench [GetSampleRate])
      by (apply resolves_automatic; [reflexivity|exact Hr]).
    exact (set_bandwidth_read_back_error Float64.zero _ 0 deaf_bench
             _ _ _ 1500000 1500000 (-1) 1500000
             HRESA Hc Hs Hg ltac:(discriminate)).
Defined.

(** X12: the antenna reported as current is among the antennas listed, on
    every board and for every channel; the list starts with "RX0", has one
    or two entries and no entry twice. *)
Theorem current_antenna_is_listed {device : Type} `{Hardware device}
  (d : device) (chan chan' : Z) :
  exists (current : string) (antennas : list string),
    get_antenna chan d = (Value current, d, []) /\
    get_antennas chan' d = (Value antennas, d, []) /\
    In current antennas /\ NoDup antennas /\
    hd_error antennas = Some current /\
    (1 <= length antennas <= 2)%nat.
Proof.
  exists "RX0"%string.
  unfold get_antennas, get_antenna, ret.
  destruct (board_eqb BLADERF_REV_2 (get_board_type d)); eexists;
    (split; [reflexivity|split; [reflexivity|]]).
  - cbn [app]. repeat split; [now left| |cbn; lia|cbn; lia].
    constructor; [|constructor; [intros []|constructor]].
    intros [E|[]]. discriminate E.
  - repeat split; [now left| |cbn; lia|cbn; lia].
    constructor; [intros []|constructor].
Qed.

(** X13: of the DC offset modes only "off" reaches the hardware: it
    writes a zero offset for the channel and raises if the hardware layer
    reports an error; "manual", "automatic" and any other mode value leave
    the device as it is and never raise. *)
Theorem dc_offset_mode_reaches_hardware_only_when_off
  {device : Type} `{Hardware device} `{Correction device}
  (mode chan : Z) (d : device) :
  (mode = DCOffsetOff ->
     snd (fst (set_dc_offset_mode mode chan d))
       = snd (common_set_dc_offset d (Float64.zero, Float64.zero) chan) /\
     (fst (fst (set_dc_offset_mode mode chan d)) = Value tt
        <-> fst (common_set_dc_offset d (Float64.zero, Float64.zero) chan) = 0)) /\
  (mode <> DCOffsetOff -> fst (set_dc_offset_mode mode chan d) = (Value tt, d)).
Proof.
  unfold set_dc_offset_mode. split.
  - intros ->. rewrite Z.eqb_refl. unfold set_dc_offset.
    destruct (common_set_dc_offset d (Float64.zero, Float64.zero) chan) as [r d1].
    cbn [fst snd].
    destruct (Z.eqb_spec r 0) as [E|E]; cbn [negb fst snd].
    + split; [reflexivity|]. split; [intros _; exact E|reflexivity].
    + split; [reflexivity|]. split; [discriminate|intros E'; contradiction].
  - intros Hne.
    destruct (Z.eqb_spec DCOffsetOff mode) as [E|_]; [congruence|].
    destruct (DCOffsetManual =? mode); [reflexivity|].
    destruct (DCOffsetAutomatic =? mode); reflexivity.
Qed.

(** X14: of the IQ balance modes only "off" reaches the hardware: it
    writes a zero balance for the channel and raises if the hardware layer
    reports an error; "manual", "automatic" and any other mode value leave
    the device as it is and never raise. *)
Theorem iq_balance_mode_reaches_hardware_only_when_off
  {device : Type} `{Hardware device} `{Correction device}
  (mode chan : Z) (d : device) :
  (mode = IQBalanceOff ->
     snd (fst (set_iq_balance_mode mode chan d))
       = snd (common_set_iq_balance d (Float64.zero, Float64.zero) chan) /\
     (fst (fst (set_iq_balance_mode mode chan d)) = Value tt
        <-> fst (common_set_iq_balance d (Float64.zero, Float64.zero) chan) = 0)) /\
  (mode <> IQBalanceOff -> fst (set_iq_balance_mode mode chan d) = (Value tt, d)).
Proof.
  unfold set_iq_balance_mode. split.
  - intros ->. rewrite Z.eqb_refl. unfold set_iq_balance.
    destruct (common_set_iq_balance d (Float64.zero, Float64.zero) chan) as [r d1].
    cbn [fst snd].
    destruct (Z.eqb_spec r 0) as [E|E]; cbn [negb fst snd].
    + split; [reflexivity|]. split; [intros _; exact E|reflexivity].
    + split; [reflexivity|]. split; [discriminate|intros E'; contradiction].
  - intros Hne.
    destruct (Z.eqb_spec IQBalanceOff mode) as [E|_]; [congruence|].
    destruct (IQBalanceManual =? mode); [reflexivity|].
    destruct (IQBalanceAutomatic =? mode); reflexivity.
Qed.

(** X15: a [sampling] option that is neither "internal" nor "external" is
    reported as invalid and otherwise ignored: no sampling mode is set, the
    device is as before, and construction carries on with the FPGA check. *)
Theorem unknown_sampling_value_is_ignored {device : Type} `{Board device}
  (dict : dict_t) (sampling : string) (d : device) :
  dict_find "sampling" dict = Some sampling ->
  sampling <> "internal"%string -> sampling <> "external"%string ->
  construct dict d
  = (d, SettingSampling sampling :: InvalidSampling sampling :: check_fpga_version d).
Proof.
  intros Hf Hi He. unfold construct, configure_sampling. rewrite Hf.
  apply String.eqb_neq in Hi. apply String.eqb_neq in He. rewrite Hi, He.
  reflexivity.
Qed.

Lemma unknown_sampling_value_is_ignored_witness :
  construct [("bladerf", "0"); ("sampling", "auto")]%string quiet_bench
  = (quiet_bench, [SettingSampling "auto"; InvalidSampling "auto"]).
Proof.
  exact (unknown_sampling_value_is_ignored
           [("bladerf", "0"); ("sampling", "auto")]%string "auto" quiet_bench
           eq_refl ltac:(discriminate) ltac:(discriminate)).
Defined.

Lemma configure_sampling_never_warns {device : Type} `{Board device}
  (dict : dict_t) (d : device) :
  ~ In FpgaTooOld (snd (configure_sampling dict d)).
Proof.
  unfold configure_sampling, try_set_sampling.
  destruct (dict_find "sampling" dict) as [s|]; [|intros []].
  destruct (String.eqb s "internal").
  - destruct (bladerf_set_sampling d BLADERF_SAMPLING_INTERNAL) as [r d1].
    destruct (negb (r =? 0)); cbn; intuition discriminate.
  - destruct (String.eqb s "external").
    + destruct (bladerf_set_sampling d BLADERF_SAMPLING_EXTERNAL) as [r d1].
      destruct (negb (r =? 0)); cbn; intuition discriminate.
    + cbn. intuition discriminate.
Qed.

Lemma fpga_too_old_iff (v : bladerf_version) :
  0 <= major v -> 0 <= minor v -> 0 <= patch v ->
  fpga_too_old v = true <-> version_lt v (mk_version 0 0 1).
Proof.
  intros H1 H2 H3. unfold fpga_too_old, version_lt. cbn [major minor patch].
  rewrite !andb_true_iff, !Z.leb_le, Z.ltb_lt. lia.
Qed.

(** X16: the constructor warns about an old FPGA exactly when the version
    query succeeds and the version is below 0.0.1 in the usual order of
    versions (the fields of a version being unsigned). *)
Theorem old_fpga_warning_iff_below_0_0_1 {device : Type} `{Board device}
  (dict : dict_t) (d : device) :
  0 <= major (snd (bladerf_fpga_version (fst (configure_sampling dict d)))) ->
  0 <= minor (snd (bladerf_fpga_version (fst (configure_sampling dict d)))) ->
  0 <= patch (snd (bladerf_fpga_version (fst (configure_sampling dict d)))) ->
  In FpgaTooOld (snd (construct dict d)) <->
  fst (bladerf_fpga_version (fst (configure_sampling dict d))) = 0 /\
  version_lt (snd (bladerf_fpga_version (fst (configure_sampling dict d))))
    (mk_version 0 0 1).
Proof.
  intros H1 H2 H3. unfold construct.
  pose proof (configure_sampling_never_warns dict d) as Hn.
  destruct (configure_sampling dict d) as [d1 log]. cbn [fst snd] in *.
  rewrite in_app_iff. unfold check_fpga_version.
  pose proof (fpga_too_old_iff (snd (bladerf_fpga_version d1)) H1 H2 H3) as Hv.
  destruct (bladerf_fpga_version d1) as [status v]. cbn [fst snd] in *.
  destruct (Z.eqb_spec status 0) as [E|E]; cbn [negb].
  - destruct (fpga_too_old v).
    + split; [intros _; split; [exact E|now apply Hv]|intros _; right; now left].
    + split; [intros [F|[]]; contradiction|].
      intros [_ F]. apply Hv in F. discriminate.
  - split; [intros [F|[F|[]]]; [contradiction|discriminate]|intros [F _]; contradiction].
Qed.

Lemma old_fpga_warning_iff_below_0_0_1_witness :
  In FpgaTooOld (snd (construct [] failing_bench)) /\
  ~ In FpgaTooOld (snd (construct [] quiet_bench)).
Proof.
  split.
  - apply (old_fpga_warning_iff_below_0_0_1 [] failing_bench);
      try (vm_compute; discriminate).
    split; [reflexivity|]. right. split; [reflexivity|]. right. split; [reflexivity|].
    vm_compute. reflexivity.
  - intros H.
    apply (old_fpga_warning_iff_below_0_0_1 [] quiet_bench) in H;
      try (vm_compute; discriminate).
    destruct H as [_ [F|[_ [F|[F _]]]]]; vm_compute in F; discriminate.
Defined.
